(** * pdf_summarizer: text extraction and summarisation glue

    A shallow embedding of [src/summarizer.py] and [src/text_extractor.py].
    Python strings are lists of Unicode code points; the third-party
    libraries (sumy, transformers, pdfplumber, PyPDF2, python-docx), the file
    system and the parts of the Unicode database that are tables rather than
    code are parameters of the development. *)

From Stdlib Require Import List NArith ZArith Bool String Ascii Lia.
From Stdlib Require Import Floats.SpecFloat.
Import ListNotations.
Open Scope list_scope.

Set Implicit Arguments.

(** ** Python strings *)

Module Py.

Local Open Scope N_scope.

Definition char := N.
Definition str := list char.

(** A string literal (ASCII source text) as a Python string. *)
Definition lit (s : string) : str := map N_of_ascii (list_ascii_of_string s).
Arguments lit s%_string.

Definition SP : char := 32%N.
Definition NL : char := 10%N.

Definition between (lo hi c : char) : bool := ((lo <=? c) && (c <=? hi))%N.

(** [str.isspace] on one character, which is also what [str.split()],
    [str.strip()] and the pattern [\s] test (CPython's
    [_PyUnicode_IsWhitespace]). *)
Definition isspace (c : char) : bool :=
  between 0x09 0x0D c || between 0x1C 0x20 c
  || (c =? 0x85)%N || (c =? 0xA0)%N || (c =? 0x1680)%N
  || between 0x2000 0x200A c
  || (c =? 0x2028)%N || (c =? 0x2029)%N || (c =? 0x202F)%N
  || (c =? 0x205F)%N || (c =? 0x3000)%N.

(** The tables of the Unicode database that the code consults above ASCII:
    [Py_UNICODE_ISALNUM] (for [\w]) and [str.lower]. *)
Record Unicode := {
  isalnum_hi : char -> bool;
  lower_hi : str -> str
}.

Definition isascii (c : char) : bool := (c <? 128)%N.

Definition ascii_alnum (c : char) : bool :=
  between 48 57 c || between 65 90 c || between 97 122 c.

(** The pattern [\w]: alphanumeric or underscore. *)
Definition isword (U : Unicode) (c : char) : bool :=
  (if isascii c then ascii_alnum c else isalnum_hi U c) || (c =? 95)%N.

(** [str.lower()]: on ASCII text only [A]-[Z] change. *)
Definition lower (U : Unicode) (s : str) : str :=
  if forallb isascii s
  then map (fun c => if between 65 90 c then (c + 32)%N else c) s
  else lower_hi U s.

(** A table for closed examples; on ASCII text every table agrees with it. *)
Definition ascii_table : Unicode :=
  {| isalnum_hi := fun _ => false; lower_hi := fun s => s |}.

(** [len(x)] of a string or a list *)
Definition len {A : Type} (x : list A) : Z := Z.of_nat (List.length x).

(** [sep.join(parts)] *)
Fixpoint join (sep : str) (parts : list str) : str :=
  match parts with
  | [] => []
  | [x] => x
  | x :: rest => x ++ sep ++ join sep rest
  end.

(** [s.split()]: the maximal runs of non-whitespace characters.  [word] is
    the token being read. *)
Definition flush (word : str) : list str :=
  match word with [] => [] | _ => [word] end.

Fixpoint split_from (word : str) (s : str) : list str :=
  match s with
  | [] => flush word
  | c :: r =>
      if isspace c then flush word ++ split_from [] r
      else split_from (word ++ [c]) r
  end.

Definition split (s : str) : list str := split_from [] s.

(** [s.split(sep)] for a one-character separator: never an empty list. *)
Fixpoint split_on (sep : char) (s : str) : list str :=
  match s with
  | [] => [[]]
  | c :: r =>
      if (c =? sep)%N then [] :: split_on sep r
      else match split_on sep r with
           | l :: ls => (c :: l) :: ls
           | [] => [[c]]
           end
  end.

(** [s.lstrip()], [s.rstrip()], [s.strip()] *)
Fixpoint lstrip (s : str) : str :=
  match s with
  | [] => []
  | c :: r => if isspace c then lstrip r else s
  end.

Fixpoint rstrip (s : str) : str :=
  match s with
  | [] => []
  | c :: r =>
      match rstrip r with
      | [] => if isspace c then [] else [c]
      | r' => c :: r'
      end
  end.

Definition strip (s : str) : str := rstrip (lstrip s).

(** [re.sub(r'C+', repl, s)] for a character class [C]: every maximal run
    of class characters is replaced by [repl].  [in_run] says that the
    previous character belonged to the run being replaced. *)
Fixpoint re_sub_plus_from (cls : char -> bool) (repl : str)
    (in_run : bool) (s : str) : str :=
  match s with
  | [] => []
  | c :: r =>
      if cls c
      then (if in_run then [] else repl) ++ re_sub_plus_from cls repl true r
      else c :: re_sub_plus_from cls repl false r
  end.

Definition re_sub_plus (cls : char -> bool) (repl s : str) : str :=
  re_sub_plus_from cls repl false s.

(** [re.sub(r'C', repl, s)] for a character class [C]. *)
Fixpoint re_sub_char (cls : char -> bool) (repl s : str) : str :=
  match s with
  | [] => []
  | c :: r => (if cls c then repl else [c]) ++ re_sub_char cls repl r
  end.

End Py.


(** ** Exceptions

    A call either returns a value or raises; [x <- c ;; k] is sequencing
    with propagation of the exception. *)

Inductive exn : Type :=
| FileNotFoundError
| ValueError
| ZeroDivisionError
| AttributeError
| OSError (errno : Z)
| LibraryError (tag : nat).

Definition result (A : Type) : Type := (exn + A)%type.

Definition raise {A : Type} (e : exn) : result A := inl e.
Definition ret {A : Type} (x : A) : result A := inr x.

Definition bind {A B : Type} (c : result A) (k : A -> result B) : result B :=
  match c with
  | inl e => inl e
  | inr x => k x
  end.

Notation "x <- c ;; k" := (bind c (fun x => k))
  (at level 61, c at next level, right associativity).

(** Equality test on Python strings ([==]). *)
Definition str_eqb (a b : Py.str) : bool :=
  if list_eq_dec N.eq_dec a b then true else false.

(** ** [summarizer.py]: class [DocumentSummarizer] *)

Module Summarizer.

Record summary_result := {
  summary : Py.str;
  original_length : Z;
  summary_length : Z;
  compression_ratio : spec_float;
  method : Py.str
}.

(** An [int] as the exact operand of a float operation. *)
Definition float_of_int (a : Z) : spec_float :=
  match a with
  | Z0 => S754_zero false
  | Zpos m => S754_finite false m 0
  | Zneg m => S754_finite true m 0
  end.

(** [a / b] on [int]s: the quotient rounded to the nearest binary64 float,
    ties to even, as CPython's true division of integers computes it.
    The operands here are lengths, below 2^63, so that the quotient is
    never too large for a float. *)
Definition truediv (a b : Z) : result spec_float :=
  if (b =? 0)%Z then raise ZeroDivisionError
  else ret (SFdiv 53 1024 (float_of_int a) (float_of_int b)).

Section DocumentSummarizer.

(** The Unicode tables behind [\w]. *)
Variable U : Py.Unicode.

(** sumy: [TextRankSummarizer()(PlaintextParser.from_string(text,
    Tokenizer("english")).document, sentence_count)], the selected
    sentences as strings, or the exception it raised. *)
Variable textrank : Py.str -> Z -> result (list Py.str).

(** What [self.abstractive_summarization] is bound to.  The class as this
    file defines it has no such method ([undefined_method] below); a
    subclass or a patched instance may bind one, which returns a summary
    or raises. *)
Variable abstractive_summarization : Py.str -> result Py.str.

(** The characters of [\.\,\;\:\!\?]. *)
Definition punctuation (c : Py.char) : bool :=
  existsb (N.eqb c) (Py.lit ".,;:!?").

(** The class [[^\w\s\.\,\;\:\!\?]]. *)
Definition special (c : Py.char) : bool :=
  negb (Py.isword U c || Py.isspace c || punctuation c).

Definition preprocess_text (text : Py.str) : Py.str :=
  (* Remove extra whitespace *)
  let text := Py.re_sub_plus Py.isspace (Py.lit " ") text in
  (* Remove special characters but keep punctuation *)
  let text := Py.re_sub_char special [] text in
  (* Remove very short lines (likely artifacts) *)
  let lines := Py.split_on Py.NL text in
  let cleaned_lines :=
    filter (fun line => (3 <? Py.len (Py.split line))%Z) lines in
  Py.strip (Py.join [Py.NL] cleaned_lines).

(** [sentence_count] defaults to 5; any exception becomes the empty
    string. *)
Definition extractive_summarization (text : Py.str) (sentence_count : Z)
  : Py.str :=
  match textrank text sentence_count with
  | inr sentences => Py.join (Py.lit " ") sentences
  | inl _ => []
  end.

(** One iteration of the loop over [words]; the state is
    [(chunks, current_chunk)]. *)
Definition chunk_step (max_length : Z) (st : list Py.str * list Py.str)
    (word : Py.str) : list Py.str * list Py.str :=
  let '(chunks, current_chunk) := st in
  let current_chunk := current_chunk ++ [word] in
  if (Py.len (Py.join (Py.lit " ") current_chunk) >? max_length)%Z
  then (chunks ++ [Py.join (Py.lit " ") (removelast current_chunk)], [word])
  else (chunks, current_chunk).

Definition _split_text_into_chunks (text : Py.str) (max_length : Z)
  : list Py.str :=
  let words := Py.split text in
  let '(chunks, current_chunk) :=
    fold_left (chunk_step max_length) words ([], []) in
  match current_chunk with
  | [] => chunks
  | _ => chunks ++ [Py.join (Py.lit " ") current_chunk]
  end.

(** [method] defaults to ["hybrid"]. *)
Definition generate_summary (text : Py.str) (method : Py.str)
  : result summary_result :=
  let preprocessed_text := preprocess_text text in
  summary <-
    (if str_eqb method (Py.lit "extractive") then
       ret (extractive_summarization preprocessed_text 5)
     else if str_eqb method (Py.lit "abstractive") then
       abstractive_summarization preprocessed_text
     else if str_eqb method (Py.lit "hybrid") then
       (* First extractive, then abstractive *)
       let extractive_summary :=
         extractive_summarization preprocessed_text 10 in
       abstractive_summarization extractive_summary
     else raise ValueError) ;;
  ratio <- truediv (Py.len (Py.split summary)) (Py.len (Py.split text)) ;;
  ret {| summary := summary;
         original_length := Py.len (Py.split text);
         summary_length := Py.len (Py.split summary);
         compression_ratio := ratio;
         method := method |}.

End DocumentSummarizer.

(** [self.abstractive_summarization] on an instance of the class as this
    file defines it: the class has no such attribute, so the lookup raises
    [AttributeError] before anything is called. *)
Definition undefined_method (argument : Py.str) : result Py.str :=
  raise AttributeError.

End Summarizer.

(** ** [text_extractor.py]: class [TextExtractor] *)

Module TextExtractor.

Record metadata := {
  pages : Z;
  title : Py.str;
  author : Py.str;
  subject : Py.str;
  file_size : Z
}.

Record extraction := {
  text : Py.str;
  meta : metadata;
  word_count : Z;
  char_count : Z
}.

(** What [pdfplumber.open] gives: [page.extract_text()] of every page
    ([None], a string, or an exception) and the document information. *)
Record plumber_pdf := {
  plumber_pages : list (result (option Py.str));
  plumber_metadata : list (Py.str * Py.str)
}.

(** What [docx.Document] gives. *)
Record docx_document := {
  paragraphs : list Py.str;
  core_title : Py.str;
  core_author : Py.str;
  core_subject : Py.str;
  sections : Z
}.

(** What [os.stat] answers when [Path.exists()] asks for a path: the file
    is there, the call raises [OSError] with an error number, or the path
    is refused with [ValueError] (an embedded null character). *)
Inductive stat_outcome : Type :=
| StatOk
| StatOSError (errno : Z)
| StatValueError.

(** Error numbers, as on Linux. *)
Definition ENOENT : Z := 2.
Definition EBADF : Z := 9.
Definition EACCES : Z := 13.
Definition ENOTDIR : Z := 20.
Definition ENAMETOOLONG : Z := 36.
Definition ELOOP : Z := 40.

(** pathlib's [_ignore_error] (CPython 3.8 to 3.12, POSIX): the errors of
    [stat] that mean that the path does not exist. *)
Definition ignore_error (errno : Z) : bool :=
  ((errno =? ENOENT) || (errno =? ENOTDIR) || (errno =? EBADF)
   || (errno =? ELOOP))%Z.

(** The file system and the parsing libraries. *)
Record Host := {
  unicode : Py.Unicode;
  os_stat : Py.str -> stat_outcome;
  st_size : Py.str -> result Z;
  pdfplumber_open : Py.str -> result plumber_pdf;
  (** [open(path, 'rb')], [PyPDF2.PdfReader] and its pages' texts *)
  pypdf2_pages : Py.str -> result (list (result Py.str));
  docx_Document : Py.str -> result docx_document
}.

(** [Path.exists()] (CPython 3.8 to 3.12): an ignored error of [stat] and
    a [ValueError] answer [False], any other [OSError] is raised again. *)
Definition path_exists (H : Host) (p : Py.str) : result bool :=
  match os_stat H p with
  | StatOk => ret true
  | StatOSError errno =>
      if ignore_error errno then ret false else raise (OSError errno)
  | StatValueError => ret false
  end.

(** [d.get(key, default)] *)
Fixpoint dict_get (d : list (Py.str * Py.str)) (key default : Py.str)
  : Py.str :=
  match d with
  | [] => default
  | (k, v) :: rest => if str_eqb k key then v else dict_get rest key default
  end.

(** [a or b] on strings *)
Definition or_else (a b : Py.str) : Py.str :=
  match a with [] => b | _ => a end.

(** [s.rfind(ch)], -1 when [ch] does not occur. *)
Fixpoint rfind (ch : Py.char) (s : Py.str) : Z :=
  match s with
  | [] => -1
  | c :: r =>
      let i := rfind ch r in
      if (0 <=? i)%Z then (i + 1)%Z
      else if (c =? ch)%N then 0%Z else (-1)%Z
  end.

(** [PurePosixPath.name]: the last component, [.] and empty components
    apart. *)
Definition path_name (p : Py.str) : Py.str :=
  last (filter (fun part => negb (str_eqb part [] || str_eqb part (Py.lit ".")))
               (Py.split_on 47%N p)) [].

(** [PurePath.suffix] *)
Definition suffix (p : Py.str) : Py.str :=
  let name := path_name p in
  let i := rfind 46%N name in
  if ((0 <? i) && (i <? Py.len name - 1))%Z
  then skipn (Z.to_nat i) name
  else [].

Section Extractor.

Variable H : Host.

(** The loop over [pdf.pages]. *)
Fixpoint plumber_text (pgs : list (result (option Py.str))) (text : Py.str)
  : result Py.str :=
  match pgs with
  | [] => ret text
  | page :: rest =>
      page_text <- page ;;
      match page_text with
      | Some ((_ :: _) as t) => plumber_text rest (text ++ t ++ [Py.NL])
      | _ => plumber_text rest text
      end
  end.

(** The loop over [pdf_reader.pages]. *)
Fixpoint pypdf2_text (pgs : list (result Py.str)) (text : Py.str)
  : result Py.str :=
  match pgs with
  | [] => ret text
  | page :: rest =>
      t <- page ;;
      pypdf2_text rest (text ++ t ++ [Py.NL])
  end.

Definition _extract_from_pdf (file_path : Py.str) : result extraction :=
  (* Method 1: pdfplumber (more accurate) *)
  pdf <- pdfplumber_open H file_path ;;
  size <- st_size H file_path ;;
  let metadata :=
    {| pages := Py.len (plumber_pages pdf);
       title := dict_get (plumber_metadata pdf) (Py.lit "Title") (Py.lit "Unknown");
       author := dict_get (plumber_metadata pdf) (Py.lit "Author") (Py.lit "Unknown");
       subject := dict_get (plumber_metadata pdf) (Py.lit "Subject") [];
       file_size := size |} in
  text <- plumber_text (plumber_pages pdf) [] ;;
  (* Fallback: PyPDF2 if pdfplumber fails *)
  text <-
    (match Py.strip text with
     | [] => pgs <- pypdf2_pages H file_path ;; pypdf2_text pgs text
     | _ => ret text
     end) ;;
  ret {| text := Py.strip text;
         meta := metadata;
         word_count := Py.len (Py.split text);
         char_count := Py.len text |}.

Definition _extract_from_docx (file_path : Py.str) : result extraction :=
  doc <- docx_Document H file_path ;;
  let text := Py.join [Py.NL] (paragraphs doc) in
  (* Extract metadata *)
  size <- st_size H file_path ;;
  let metadata :=
    {| title := or_else (core_title doc) (Py.lit "Unknown");
       author := or_else (core_author doc) (Py.lit "Unknown");
       subject := or_else (core_subject doc) [];
       pages := sections doc;
       file_size := size |} in
  ret {| text := Py.strip text;
         meta := metadata;
         word_count := Py.len (Py.split text);
         char_count := Py.len text |}.

Definition extract_text (file_path : Py.str) : result extraction :=
  found <- path_exists H file_path ;;
  if negb found then raise FileNotFoundError
  else if str_eqb (Py.lower (unicode H) (suffix file_path)) (Py.lit ".pdf")
  then _extract_from_pdf file_path
  else if str_eqb (Py.lower (unicode H) (suffix file_path)) (Py.lit ".docx")
  then _extract_from_docx file_path
  else raise ValueError.

End Extractor.

End TextExtractor.

(** ** The preprocessing steps as the specification words them

    Three steps: collapse every run of whitespace into a single space,
    remove every character outside word characters, whitespace and
    [. , ; : ! ?], drop every line with 3 or fewer tokens and return the
    remaining lines. *)

Module Spec.

(** The maximal runs of a text, each tagged with whether it is a run of
    characters satisfying [p]. *)
Fixpoint runs (p : Py.char -> bool) (s : Py.str) : list (bool * Py.str) :=
  match s with
  | [] => []
  | c :: r =>
      match runs p r with
      | (b, run) :: rest =>
          if Bool.eqb (p c) b then (b, c :: run) :: rest
          else (p c, [c]) :: (b, run) :: rest
      | [] => [(p c, [c])]
      end
  end.

Definition collapse_whitespace (s : Py.str) : Py.str :=
  List.concat (map (fun r : bool * Py.str => if fst r then [Py.SP] else snd r)
              (runs Py.isspace s)).

Definition allowed (U : Py.Unicode) (c : Py.char) : bool :=
  Py.isword U c || Py.isspace c || existsb (N.eqb c) (Py.lit ".,;:!?").

Definition strip_characters (U : Py.Unicode) (s : Py.str) : Py.str :=
  filter (allowed U) s.

Definition drop_short_lines (lines : list Py.str) : list Py.str :=
  filter (fun line => negb (Py.len (Py.split line) <=? 3)%Z) lines.

Definition preprocess (U : Py.Unicode) (s : Py.str) : Py.str :=
  Py.join [Py.NL]
    (drop_short_lines
       (Py.split_on Py.NL (strip_characters U (collapse_whitespace s)))).

End Spec.

(** ** Auxiliary notions for the proofs *)

(** A token: a non-empty string without whitespace. *)
Definition nonspace (c : Py.char) : bool := negb (Py.isspace c).

Definition token (w : Py.str) : Prop := w <> [] /\ forallb nonspace w = true.

(** No whitespace at the front. *)
Definition starts_clean (s : Py.str) : bool :=
  match s with
  | [] => true
  | c :: _ => nonspace c
  end.

(** No whitespace at the end. *)
Definition ends_clean (s : Py.str) : bool := starts_clean (rev s).

(** Every whitespace character is a space that follows no other
    whitespace; [prev] says that the character before [s] is whitespace. *)
Fixpoint single_spaced_from (prev : bool) (s : Py.str) : bool :=
  match s with
  | [] => true
  | c :: r =>
      if Py.isspace c
      then (c =? Py.SP)%N && negb prev && single_spaced_from true r
      else single_spaced_from false r
  end.

Definition single_spaced (s : Py.str) : bool := single_spaced_from false s.

(** The chunking loop on groups of words rather than on joined chunks: the
    ghost state behind [Summarizer.chunk_step]. *)
Definition group_step (max_length : Z)
    (st : list (list Py.str) * list Py.str) (word : Py.str)
  : list (list Py.str) * list Py.str :=
  let '(groups, current_chunk) := st in
  if (Py.len (Py.join (Py.lit " ") (current_chunk ++ [word])) >? max_length)%Z
  then (groups ++ [current_chunk], [word])
  else (groups, current_chunk ++ [word]).

(** The groups of words behind the chunks that
    [Summarizer._split_text_into_chunks] returns. *)
Definition final_groups (max_length : Z) (words : list Py.str)
  : list (list Py.str) :=
  let st := fold_left (group_step max_length) words ([], []) in
  match snd st with
  | [] => fst st
  | _ => fst st ++ [snd st]
  end.

(** A group of words either fits into [max_length] characters once joined,
    or is a single word. *)
Definition fits (max_length : Z) (grp : list Py.str) : Prop :=
  (Py.len (Py.join (Py.lit " ") grp) <= max_length)%Z \/ exists w, grp = [w].

(** A text that is empty or ends in whitespace; the page loops of the PDF
    extractor end every page with a newline. *)
Definition newline_ended (s : Py.str) : Prop :=
  s = [] \/ ends_clean s = false.

(** The text cleaned by the first two steps of [preprocess_text]. *)
Definition cleaned (U : Py.Unicode) (s : Py.str) : Py.str :=
  Py.re_sub_char (Summarizer.special U) []
    (Py.re_sub_plus Py.isspace (Py.lit " ") s).

(** Texts that the first two steps of [preprocess_text] leave as they
    are, apart from the collapse of space runs. *)
Definition settled (U : Py.Unicode) (s : Py.str) : Prop :=
  (forall c, In c s -> Summarizer.special U c = false)
  /\ starts_clean s = true /\ ends_clean s = true
  /\ (s = [] \/ (3 < Py.len (Py.split s))%Z).

(** Greedy packing: a group that is followed by another one could not
    have taken the first word of the next without exceeding
    [max_length]. *)
Fixpoint greedy (max_length : Z) (gs : list (list Py.str)) : Prop :=
  match gs with
  | [] => True
  | g :: rest =>
      match rest with
      | (w :: _) :: _ =>
          (max_length < Py.len (Py.join (Py.lit " ") (g ++ [w])))%Z
      | _ => True
      end /\ greedy max_length rest
  end.

(** The page texts that the pdfplumber loop of [_extract_from_pdf] keeps:
    those that are neither [None] nor empty. *)
Fixpoint kept_pages (pgs : list (option Py.str)) : list Py.str :=
  match pgs with
  | [] => []
  | Some (c :: t) :: rest => (c :: t) :: kept_pages rest
  | _ :: rest => kept_pages rest
  end.

(** ** Stand-ins for closed examples *)

Module Demo.

(** A sentence picker that returns the text as one sentence. *)
Definition textrank (t : Py.str) (n : Z) : result (list Py.str) := ret [t].

(** [generate_summary] of the class as shipped, with that picker. *)
Definition generate_summary :=
  Summarizer.generate_summary Py.ascii_table textrank
    Summarizer.undefined_method.

(** A sentence picker that always raises. *)
Definition failing_textrank (t : Py.str) (n : Z) : result (list Py.str) :=
  raise (LibraryError 1).

(** What the class as shipped returns for ["one two three four five"]
    with the extractive method and the picker above. *)
Definition sample_result : Summarizer.summary_result :=
  {| Summarizer.summary := Py.lit "one two three four five";
     Summarizer.original_length := 5;
     Summarizer.summary_length := 5;
     Summarizer.compression_ratio := S754_finite false 4503599627370496 (-52);
     Summarizer.method := Py.lit "extractive" |}.

(** A directory with four files; every PDF has the single page
    ["Hello world"], every DOCX the paragraphs ["Hello world"] and [""]. *)
Definition files : list Py.str :=
  [Py.lit "report.pdf"; Py.lit "REPORT.PDF"; Py.lit "minutes.Docx";
   Py.lit "notes.txt"].

(** A file name of 304 characters, longer than the 255 the file system
    allows. *)
Definition long_name : Py.str := repeat 97%N 300 ++ Py.lit ".pdf".

(** [stat] in that directory: the four files are there, a name that is
    too long is refused, any other is not found. *)
Definition stat_in_directory (p : Py.str) : TextExtractor.stat_outcome :=
  if existsb (str_eqb p) files then TextExtractor.StatOk
  else if (255 <? Py.len (TextExtractor.path_name p))%Z
       then TextExtractor.StatOSError TextExtractor.ENAMETOOLONG
       else TextExtractor.StatOSError TextExtractor.ENOENT.

Definition host : TextExtractor.Host :=
  {| TextExtractor.unicode := Py.ascii_table;
     TextExtractor.os_stat := stat_in_directory;
     TextExtractor.st_size := fun _ => ret 1024%Z;
     TextExtractor.pdfplumber_open := fun _ =>
       ret {| TextExtractor.plumber_pages := [ret (Some (Py.lit "Hello world"))];
              TextExtractor.plumber_metadata := [] |};
     TextExtractor.pypdf2_pages := fun _ => ret [ret (Py.lit "Hello world")];
     TextExtractor.docx_Document := fun _ =>
       ret {| TextExtractor.paragraphs := [Py.lit "Hello world"; []];
              TextExtractor.core_title := [];
              TextExtractor.core_author := [];
              TextExtractor.core_subject := [];
              TextExtractor.sections := 1%Z |} |}.

(** The same directory on a machine where PyPDF2 always raises. *)
Definition host_failing_pypdf2 : TextExtractor.Host :=
  {| TextExtractor.unicode := TextExtractor.unicode host;
     TextExtractor.os_stat := TextExtractor.os_stat host;
     TextExtractor.st_size := TextExtractor.st_size host;
     TextExtractor.pdfplumber_open := TextExtractor.pdfplumber_open host;
     TextExtractor.pypdf2_pages := fun _ => raise (LibraryError 3);
     TextExtractor.docx_Document := TextExtractor.docx_Document host |}.

(** The same directory for scanned PDFs: pdfplumber finds nothing on the
    first page and a single space on the second. *)
Definition host_blank_plumber : TextExtractor.Host :=
  {| TextExtractor.unicode := TextExtractor.unicode host;
     TextExtractor.os_stat := fun _ => TextExtractor.StatOk;
     TextExtractor.st_size := TextExtractor.st_size host;
     TextExtractor.pdfplumber_open := fun _ =>
       ret {| TextExtractor.plumber_pages :=
                [ret None; ret (Some (Py.lit " "))];
              TextExtractor.plumber_metadata := [] |};
     TextExtractor.pypdf2_pages := TextExtractor.pypdf2_pages host;
     TextExtractor.docx_Document := TextExtractor.docx_Document host |}.

End Demo.

(** * Facts about the string primitives *)

Module PyFacts.

Import Py.

Lemma isspace_SP : isspace SP = true.
Proof. reflexivity. Qed.

Lemma isspace_NL : isspace NL = true.
Proof. reflexivity. Qed.

Lemma flush_token (w : str) : w <> [] -> flush w = [w].
Proof. destruct w; [congruence | reflexivity]. Qed.

(** *** [split] *)

Lemma split_from_nonspace (w acc s : str) :
  forallb nonspace w = true ->
  split_from acc (w ++ s) = split_from (acc ++ w) s.
Proof.
  revert acc. induction w as [|c w IH]; intros acc Hw; simpl.
  - now rewrite app_nil_r.
  - simpl in Hw. apply andb_prop in Hw as [Hc Hw].
    unfold nonspace in Hc. apply negb_true_iff in Hc. rewrite Hc.
    rewrite IH by assumption. now rewrite <- app_assoc.
Qed.

Lemma split_from_space (c : char) (acc s : str) :
  isspace c = true -> split_from acc (c :: s) = flush acc ++ split s.
Proof. intros Hc. simpl. now rewrite Hc. Qed.

Lemma split_from_spaces (ws acc : str) :
  forallb isspace ws = true -> split_from acc ws = flush acc.
Proof.
  revert acc. induction ws as [|c ws IH]; intros acc Hws; simpl; [reflexivity|].
  simpl in Hws. apply andb_prop in Hws as [Hc Hws]. rewrite Hc.
  rewrite IH by assumption. apply app_nil_r.
Qed.

Lemma split_from_app_spaces (s ws acc : str) :
  forallb isspace ws = true -> split_from acc (s ++ ws) = split_from acc s.
Proof.
  intros Hws. revert acc. induction s as [|c s IH]; intros acc; simpl.
  - now apply split_from_spaces.
  - destruct (isspace c); [f_equal|]; apply IH.
Qed.

Lemma split_from_tokens (s acc : str) :
  forallb nonspace acc = true -> Forall token (split_from acc s).
Proof.
  revert acc. induction s as [|c s IH]; intros acc Hacc; simpl.
  - destruct acc; constructor; [split; [discriminate | assumption] | constructor].
  - destruct (isspace c) eqn:Hc.
    + apply Forall_app. split; [| now apply IH].
      destruct acc; constructor; [split; [discriminate | assumption] | constructor].
    + apply IH. rewrite forallb_app, Hacc. simpl. unfold nonspace. now rewrite Hc.
Qed.

Lemma split_tokens (s : str) : Forall token (split s).
Proof. now apply split_from_tokens. Qed.

Lemma split_join (ws : list str) :
  Forall token ws -> split (join (lit " ") ws) = ws.
Proof.
  induction 1 as [|w ws [Hne Hw] Hws IH]; [reflexivity|].
  destruct ws as [|w' ws'].
  - simpl. unfold split. rewrite <- (app_nil_r w) at 1.
    rewrite split_from_nonspace by assumption. simpl. now apply flush_token.
  - change (join (lit " ") (w :: w' :: ws'))
      with (w ++ SP :: join (lit " ") (w' :: ws')).
    unfold split. rewrite split_from_nonspace by assumption. simpl app.
    rewrite split_from_space by reflexivity.
    rewrite flush_token by assumption. simpl. f_equal. exact IH.
Qed.

(** *** [strip] *)

Lemma lstrip_spec (s : str) :
  exists ws, s = ws ++ lstrip s /\ forallb isspace ws = true.
Proof.
  induction s as [|c s [ws [Hs Hws]]]; [now exists []|].
  simpl. destruct (isspace c) eqn:Hc.
  - exists (c :: ws). simpl. rewrite Hc, Hws. split; [now f_equal | reflexivity].
  - now exists [].
Qed.

Lemma rstrip_spec (s : str) :
  exists ws, s = rstrip s ++ ws /\ forallb isspace ws = true.
Proof.
  induction s as [|c s [ws [Hs Hws]]]; [now exists []|].
  simpl. destruct (rstrip s) as [|d r'] eqn:Hr.
  - simpl in Hs. subst ws. destruct (isspace c) eqn:Hc.
    + exists (c :: s). simpl. now rewrite Hc, Hws.
    + now exists s.
  - exists ws. split; [|assumption]. simpl. f_equal. exact Hs.
Qed.

Lemma split_lstrip (s : str) : split (lstrip s) = split s.
Proof.
  induction s as [|c s IH]; [reflexivity|].
  simpl. destruct (isspace c) eqn:Hc; [|reflexivity].
  unfold split at 2. now rewrite split_from_space.
Qed.

Lemma split_rstrip (s : str) : split (rstrip s) = split s.
Proof.
  destruct (rstrip_spec s) as [ws [Hs Hws]].
  rewrite Hs at 2. unfold split. now rewrite split_from_app_spaces.
Qed.

(** Stripping does not change the tokens. *)
Lemma split_strip (s : str) : split (strip s) = split s.
Proof. unfold strip. now rewrite split_rstrip, split_lstrip. Qed.

Lemma In_lstrip (c : char) (s : str) : In c (lstrip s) -> In c s.
Proof.
  destruct (lstrip_spec s) as [ws [Hs _]]. intros Hin.
  rewrite Hs. apply in_or_app. now right.
Qed.

Lemma In_rstrip (c : char) (s : str) : In c (rstrip s) -> In c s.
Proof.
  destruct (rstrip_spec s) as [ws [Hs _]]. intros Hin.
  rewrite Hs. apply in_or_app. now left.
Qed.

Lemma In_strip (c : char) (s : str) : In c (strip s) -> In c s.
Proof. intros Hin. now apply In_lstrip, In_rstrip. Qed.

Lemma length_strip (s : str) : (List.length (strip s) <= List.length s)%nat.
Proof.
  unfold strip.
  destruct (lstrip_spec s) as [ws [Hs _]].
  destruct (rstrip_spec (lstrip s)) as [ws' [Hs' _]].
  rewrite Hs at 2. rewrite Hs' at 2. rewrite !length_app. lia.
Qed.

Lemma starts_clean_lstrip (s : str) : starts_clean (lstrip s) = true.
Proof.
  induction s as [|c s IH]; [reflexivity|].
  simpl. destruct (isspace c) eqn:Hc; [assumption|].
  simpl. unfold nonspace. now rewrite Hc.
Qed.

Lemma lstrip_clean (s : str) : starts_clean s = true -> lstrip s = s.
Proof.
  destruct s as [|c s]; [reflexivity|]. simpl. unfold nonspace.
  intros Hc. apply negb_true_iff in Hc. now rewrite Hc.
Qed.

Lemma starts_clean_rstrip (s : str) :
  starts_clean s = true -> starts_clean (rstrip s) = true.
Proof.
  destruct s as [|c s]; [reflexivity|]. simpl. intros Hc.
  destruct (rstrip s); [|exact Hc].
  unfold nonspace in Hc. apply negb_true_iff in Hc. rewrite Hc.
  simpl. unfold nonspace. now rewrite Hc.
Qed.

Lemma rstrip_snoc (q : str) (c : char) :
  isspace c = false -> rstrip (q ++ [c]) = q ++ [c].
Proof.
  intros Hc. induction q as [|a q IH]; simpl; [now rewrite Hc|].
  rewrite IH. destruct (q ++ [c]) eqn:E; [|reflexivity].
  now destruct q.
Qed.

Lemma ends_clean_inv (s : str) :
  ends_clean s = true ->
  s = [] \/ exists q c, s = q ++ [c] /\ isspace c = false.
Proof.
  unfold ends_clean. destruct (rev s) as [|c l] eqn:E; intros Hc.
  - left. apply (f_equal (@rev char)) in E. now rewrite rev_involutive in E.
  - right. exists (rev l), c. split.
    + apply (f_equal (@rev char)) in E. now rewrite rev_involutive in E.
    + simpl in Hc. unfold nonspace in Hc. now apply negb_true_iff.
Qed.

Lemma ends_clean_snoc (q : str) (c : char) :
  ends_clean (q ++ [c]) = nonspace c.
Proof. unfold ends_clean. now rewrite rev_unit. Qed.

Lemma rstrip_clean (s : str) : ends_clean s = true -> rstrip s = s.
Proof.
  intros Hc. destruct (ends_clean_inv s Hc) as [-> | [q [c [-> Hsp]]]];
    [reflexivity | now apply rstrip_snoc].
Qed.

Lemma ends_clean_rstrip (s : str) : ends_clean (rstrip s) = true.
Proof.
  induction s as [|c s IH]; [reflexivity|].
  simpl. destruct (rstrip s) as [|d r'] eqn:Hr.
  - destruct (isspace c) eqn:Hc; [reflexivity|].
    unfold ends_clean. simpl. unfold nonspace. now rewrite Hc.
  - destruct (ends_clean_inv _ IH) as [E | [q [e [E He]]]]; [discriminate|].
    rewrite E. change (c :: q ++ [e]) with ((c :: q) ++ [e]).
    rewrite ends_clean_snoc. unfold nonspace. now rewrite He.
Qed.

Lemma strip_clean (s : str) :
  starts_clean s = true -> ends_clean s = true -> strip s = s.
Proof.
  intros Hs He. unfold strip. rewrite lstrip_clean by assumption.
  now apply rstrip_clean.
Qed.

Lemma strip_is_clean (s : str) :
  starts_clean (strip s) = true /\ ends_clean (strip s) = true.
Proof.
  unfold strip. split.
  - apply starts_clean_rstrip, starts_clean_lstrip.
  - apply ends_clean_rstrip.
Qed.

End PyFacts.

(** * Facts about the substitutions of [preprocess_text] *)

Module SubFacts.

Import Py PyFacts.

(** [collapse_from b s] is [re.sub(r'\s+', ' ', _)] resumed in state [b]. *)
Local Abbreviation collapse_from := (re_sub_plus_from isspace (lit " ")).
Local Abbreviation collapse := (re_sub_plus isspace (lit " ")).

Lemma collapse_from_snoc (b : bool) (s : str) (c : char) :
  isspace c = false -> collapse_from b (s ++ [c]) = collapse_from b s ++ [c].
Proof.
  intros Hc. revert b. induction s as [|a s IH]; intros b; simpl.
  - now rewrite Hc.
  - destruct (isspace a); rewrite IH; [now rewrite app_assoc | reflexivity].
Qed.

(** Whitespace that survives the collapse is a plain space. *)
Lemma collapse_from_In (b : bool) (s : str) (c : char) :
  In c (collapse_from b s) ->
  c = SP \/ (In c s /\ isspace c = false).
Proof.
  revert b. induction s as [|a s IH]; intros b; simpl; [tauto|].
  destruct (isspace a) eqn:Ha.
  - intros Hin. apply in_app_or in Hin as [Hin | Hin].
    + destruct b; simpl in Hin; [tauto | destruct Hin as [<- | []]; now left].
    + destruct (IH _ Hin) as [-> | [H1 H2]]; [now left | right; tauto].
  - intros [-> | Hin]; [right; tauto|].
    destruct (IH _ Hin) as [-> | [H1 H2]]; [now left | right; tauto].
Qed.

Lemma collapse_no_newline (s : str) : ~ In NL (collapse s).
Proof.
  intros Hin. apply collapse_from_In in Hin as [E | [_ E]]; discriminate.
Qed.

(** The collapse keeps the tokens. *)
Lemma split_collapse_from (s : str) :
  (forall acc, split_from acc (collapse_from false s) = split_from acc s)
  /\ split (collapse_from true s) = split s.
Proof.
  induction s as [|c s [IHf IHt]]; [now split|].
  split; [intros acc|]; simpl; destruct (isspace c) eqn:Hc; simpl.
  - f_equal. exact IHt.
  - rewrite Hc. apply IHf.
  - unfold split at 2. rewrite split_from_space by assumption. exact IHt.
  - unfold split. simpl. rewrite Hc. apply IHf.
Qed.

Lemma split_collapse (s : str) : split (collapse s) = split s.
Proof. apply (proj1 (split_collapse_from s)). Qed.

Lemma single_spaced_collapse_from (b : bool) (s : str) :
  single_spaced_from b (collapse_from b s) = true.
Proof.
  revert b. induction s as [|c s IH]; intros b; [reflexivity|].
  simpl. destruct (isspace c) eqn:Hc.
  - destruct b; simpl; [apply IH|]. apply IH.
  - simpl. rewrite Hc. apply IH.
Qed.

Lemma collapse_from_single_spaced (b : bool) (s : str) :
  single_spaced_from b s = true -> collapse_from b s = s.
Proof.
  revert b. induction s as [|c s IH]; intros b; [reflexivity|].
  simpl. destruct (isspace c) eqn:Hc.
  - intros H. apply andb_prop in H as [H Hs]. apply andb_prop in H as [Hsp Hb].
    apply N.eqb_eq in Hsp. apply negb_true_iff in Hb. subst b c.
    simpl. f_equal. now apply IH.
  - intros H. f_equal. now apply IH.
Qed.

(** A text is a fixed point of the collapse exactly when it is single
    spaced. *)
Lemma collapse_fixed_iff (s : str) :
  collapse s = s <-> single_spaced s = true.
Proof.
  split.
  - intros E. unfold single_spaced. rewrite <- E.
    apply single_spaced_collapse_from.
  - apply collapse_from_single_spaced.
Qed.

Lemma collapse_idempotent (s : str) : collapse (collapse s) = collapse s.
Proof. apply collapse_fixed_iff, single_spaced_collapse_from. Qed.

Lemma starts_clean_collapse (s : str) :
  starts_clean s = true -> starts_clean (collapse s) = true.
Proof.
  destruct s as [|c s]; [reflexivity|]. intros Hc.
  simpl in Hc. unfold nonspace in Hc. apply negb_true_iff in Hc.
  unfold re_sub_plus. simpl. rewrite Hc. simpl.
  unfold nonspace. now rewrite Hc.
Qed.

Lemma ends_clean_collapse (s : str) :
  ends_clean s = true -> ends_clean (collapse s) = true.
Proof.
  intros Hc. destruct (ends_clean_inv s Hc) as [-> | [q [c [-> Hsp]]]];
    [reflexivity|].
  unfold re_sub_plus. rewrite collapse_from_snoc by assumption.
  rewrite ends_clean_snoc. unfold nonspace. now rewrite Hsp.
Qed.

(** *** Removal of a character class *)

Lemma re_sub_char_filter (cls : char -> bool) (s : str) :
  re_sub_char cls [] s = filter (fun c => negb (cls c)) s.
Proof.
  induction s as [|c s IH]; [reflexivity|].
  simpl. rewrite IH. now destruct (cls c).
Qed.

Lemma re_sub_char_In (cls : char -> bool) (s : str) (c : char) :
  In c (re_sub_char cls [] s) <-> In c s /\ cls c = false.
Proof.
  rewrite re_sub_char_filter, filter_In. now rewrite negb_true_iff.
Qed.

Lemma re_sub_char_fixed (cls : char -> bool) (s : str) :
  (forall c, In c s -> cls c = false) -> re_sub_char cls [] s = s.
Proof.
  induction s as [|c s IH]; intros Hs; [reflexivity|].
  simpl. rewrite (Hs c) by now left. simpl. f_equal.
  apply IH. intros d Hd. apply Hs. now right.
Qed.

(** *** [split_on] *)

Lemma split_on_absent (sep : char) (s : str) :
  ~ In sep s -> split_on sep s = [s].
Proof.
  induction s as [|c s IH]; intros Hs; [reflexivity|].
  simpl. destruct (N.eqb_spec c sep) as [-> | Hne].
  - exfalso. apply Hs. now left.
  - rewrite IH; [reflexivity|]. intros Hin. apply Hs. now right.
Qed.

(** *** The runs of a text *)

Lemma runs_cons_head (p : char -> bool) (c : char) (s : str) :
  exists run rest, Spec.runs p (c :: s) = (p c, c :: run) :: rest.
Proof.
  revert c. induction s as [|d s IH]; intros c; simpl.
  - now exists [], [].
  - destruct (IH d) as [run [rest E]]. simpl in E. rewrite E.
    destruct (Bool.eqb (p c) (p d)) eqn:Hcd.
    + apply eqb_prop in Hcd. rewrite <- Hcd. now exists (d :: run), rest.
    + now exists [], ((p d, d :: run) :: rest).
Qed.

(** In the state after a whitespace character the scan drops the
    replacement of the run it is in, and nothing else. *)
Lemma collapse_from_states (s : str) :
  collapse_from false s =
  match s with
  | c :: _ => if isspace c then SP :: collapse_from true s
              else collapse_from true s
  | [] => []
  end.
Proof.
  destruct s as [|c s]; [reflexivity|]. simpl. now destruct (isspace c).
Qed.

(** The scan of [re.sub] and the replacement run by run agree. *)
Lemma collapse_runs (s : str) : collapse s = Spec.collapse_whitespace s.
Proof.
  unfold re_sub_plus, Spec.collapse_whitespace.
  induction s as [|c s IH]; [reflexivity|].
  destruct s as [|d s'].
  - simpl. destruct (isspace c); reflexivity.
  - destruct (runs_cons_head isspace d s') as [run [rest E]].
    change (Spec.runs isspace (c :: d :: s'))
      with (match Spec.runs isspace (d :: s') with
            | (b, run) :: rest =>
                if Bool.eqb (isspace c) b then (b, c :: run) :: rest
                else (isspace c, [c]) :: (b, run) :: rest
            | [] => [(isspace c, [c])]
            end).
    rewrite E in IH |- *.
    pose proof (collapse_from_states (d :: s')) as Hst.
    change (collapse_from false (c :: d :: s'))
      with (if isspace c
            then lit " " ++ collapse_from true (d :: s')
            else c :: collapse_from false (d :: s')).
    remember (collapse_from true (d :: s')) as after_space.
    remember (collapse_from false (d :: s')) as after_word.
    clear Heqafter_space Heqafter_word E. simpl in Hst. unfold SP in *.
    destruct (isspace c), (isspace d); simpl in IH |- *; congruence.
Qed.

End SubFacts.

(** * [preprocess_text] *)

Module PreprocessFacts.

Import Py PyFacts SubFacts.

Local Abbreviation collapse := (re_sub_plus isspace (lit " ")).

Section WithTables.

Variable U : Unicode.

Local Abbreviation special := (Summarizer.special U).
Local Abbreviation preprocess_text := (Summarizer.preprocess_text U).

Lemma special_space (c : char) : isspace c = true -> special c = false.
Proof.
  intros Hc. unfold Summarizer.special. rewrite Hc.
  now rewrite orb_true_r.
Qed.

Lemma allowed_special (c : char) : Spec.allowed U c = negb (special c).
Proof.
  unfold Spec.allowed, Summarizer.special, Summarizer.punctuation.
  now rewrite negb_involutive.
Qed.

(** What the first two steps leave: no special character, and no
    whitespace other than the space. *)
Lemma cleaned_In (s : str) (c : char) :
  In c (cleaned U s) ->
  special c = false /\ (c = SP \/ isspace c = false).
Proof.
  unfold cleaned. intros Hin. apply re_sub_char_In in Hin as [Hin Hsp].
  split; [assumption|].
  apply collapse_from_In in Hin as [-> | [_ Hc]]; [now left | now right].
Qed.

Lemma cleaned_no_newline (s : str) : ~ In NL (cleaned U s).
Proof.
  intros Hin. apply cleaned_In in Hin as [_ [E | E]]; discriminate.
Qed.

(** The newlines are gone before the text is split into lines, so the
    line filter sees the whole text as one line. *)
Lemma preprocess_text_single_line (s : str) :
  preprocess_text s =
  if (3 <? len (split (cleaned U s)))%Z then strip (cleaned U s) else [].
Proof.
  unfold Summarizer.preprocess_text. fold (cleaned U s).
  rewrite split_on_absent by apply cleaned_no_newline.
  simpl. now destruct (3 <? len (split (cleaned U s)))%Z.
Qed.

Lemma preprocess_text_settled (s : str) : settled U (preprocess_text s).
Proof.
  rewrite preprocess_text_single_line.
  destruct (3 <? len (split (cleaned U s)))%Z eqn:Hlen.
  - destruct (strip_is_clean (cleaned U s)) as [Hs He].
    repeat split; try assumption.
    + intros c Hin. apply In_strip in Hin. now apply cleaned_In in Hin.
    + right. rewrite split_strip. now apply Z.ltb_lt.
  - repeat split; try reflexivity; [intros c [] | now left].
Qed.

Lemma cleaned_settled (s : str) :
  (forall c, In c s -> special c = false) -> cleaned U s = collapse s.
Proof.
  intros Hs. unfold cleaned. apply re_sub_char_fixed.
  intros c Hin. apply collapse_from_In in Hin as [-> | [Hin _]];
    [now apply special_space | now apply Hs].
Qed.

Lemma preprocess_text_of_settled (s : str) :
  settled U s -> preprocess_text s = collapse s.
Proof.
  intros (Hsp & Hstart & Hend & Hlen).
  rewrite preprocess_text_single_line, cleaned_settled by assumption.
  rewrite split_collapse. destruct Hlen as [-> | Hlen]; [reflexivity|].
  apply Z.ltb_lt in Hlen. rewrite Hlen.
  apply strip_clean;
    [now apply starts_clean_collapse | now apply ends_clean_collapse].
Qed.

Lemma preprocess_text_twice (s : str) :
  preprocess_text (preprocess_text s) = collapse (preprocess_text s).
Proof. apply preprocess_text_of_settled, preprocess_text_settled. Qed.

Lemma preprocess_text_thrice (s : str) :
  preprocess_text (preprocess_text (preprocess_text s))
  = preprocess_text (preprocess_text s).
Proof.
  rewrite (preprocess_text_twice (preprocess_text s)).
  rewrite preprocess_text_twice. apply collapse_idempotent.
Qed.

(** Single spacing survives stripping. *)
Lemma single_spaced_from_weaken (b : bool) (s : str) :
  single_spaced_from b s = true -> single_spaced_from false s = true.
Proof.
  destruct s as [|c s]; [reflexivity|]. simpl.
  destruct (isspace c); [|tauto].
  intros H. apply andb_prop in H as [H Hs]. apply andb_prop in H as [Hc _].
  now rewrite Hc, Hs.
Qed.

Lemma single_spaced_from_app (b : bool) (s1 s2 : str) :
  single_spaced_from b (s1 ++ s2) = true -> single_spaced_from b s1 = true.
Proof.
  revert b. induction s1 as [|c s1 IH]; intros b; [reflexivity|].
  simpl. destruct (isspace c); [|apply IH].
  intros H. apply andb_prop in H as [H Hs]. rewrite H. simpl. now apply IH in Hs.
Qed.

Lemma single_spaced_lstrip (s : str) :
  single_spaced s = true -> single_spaced (lstrip s) = true.
Proof.
  unfold single_spaced. induction s as [|c s IH]; [reflexivity|].
  intros H. simpl. destruct (isspace c) eqn:Hc; [|exact H].
  apply IH. simpl in H. rewrite Hc in H.
  apply andb_prop in H as [_ H]. now apply single_spaced_from_weaken in H.
Qed.

Lemma single_spaced_strip (s : str) :
  single_spaced s = true -> single_spaced (strip s) = true.
Proof.
  intros H. apply single_spaced_lstrip in H. unfold strip.
  destruct (rstrip_spec (lstrip s)) as [ws [E _]]. rewrite E in H.
  now apply single_spaced_from_app in H.
Qed.

(** On a text without special characters the output is single spaced. *)
Lemma preprocess_text_single_spaced (s : str) :
  (forall c, In c s -> special c = false) ->
  single_spaced (preprocess_text s) = true.
Proof.
  intros Hs. rewrite preprocess_text_single_line, cleaned_settled by assumption.
  destruct (3 <? len (split (collapse s)))%Z; [|reflexivity].
  apply single_spaced_strip, single_spaced_collapse_from.
Qed.

(** The preprocessing in the three steps of the specification, and then
    stripped. *)
Lemma preprocess_text_steps (s : str) :
  preprocess_text s = strip (Spec.preprocess U s).
Proof.
  unfold Summarizer.preprocess_text, Spec.preprocess.
  unfold Spec.strip_characters, Spec.drop_short_lines.
  rewrite collapse_runs, re_sub_char_filter.
  rewrite (filter_ext (Spec.allowed U) (fun c => negb (special c)))
    by apply allowed_special.
  do 2 f_equal. apply filter_ext. intros line. apply Z.ltb_antisym.
Qed.

End WithTables.

End PreprocessFacts.

(** * [_split_text_into_chunks] *)

Module ChunkFacts.

Import Py PyFacts.

Local Abbreviation J := (join (lit " ")).

Lemma join_app (a b : list str) :
  a <> [] -> b <> [] -> J (a ++ b) = J a ++ lit " " ++ J b.
Proof.
  intros Ha Hb. induction a as [|x a IH]; [congruence|].
  destruct a as [|y a].
  - destruct b; [congruence | reflexivity].
  - change (J ((x :: y :: a) ++ b)) with (x ++ lit " " ++ J ((y :: a) ++ b)).
    rewrite IH by discriminate.
    change (J (x :: y :: a)) with (x ++ lit " " ++ J (y :: a)).
    now rewrite <- !app_assoc.
Qed.

(** Joining the joined groups is joining all the words, as long as no
    group is empty. *)
Lemma join_groups (gs : list (list str)) :
  Forall (fun g => g <> []) gs -> J (map J gs) = J (List.concat gs).
Proof.
  induction 1 as [|g gs Hg Hgs IH]; [reflexivity|].
  destruct gs as [|g' gs'].
  - simpl. now rewrite app_nil_r.
  - change (J (map J (g :: g' :: gs')))
      with (J g ++ lit " " ++ J (map J (g' :: gs'))).
    rewrite IH.
    change (List.concat (g :: g' :: gs')) with (g ++ List.concat (g' :: gs')).
    symmetry. apply join_app; [assumption|].
    inversion Hgs; subst. simpl. destruct g'; [congruence | discriminate].
Qed.

Lemma group_step_eq (m : Z) (g : list (list str)) (c : list str) (w : str) :
  group_step m (g, c) w =
  if (len (J (c ++ [w])) >? m)%Z then (g ++ [c], [w]) else (g, c ++ [w]).
Proof. reflexivity. Qed.

(** The loop of the source, seen through its groups. *)
Lemma chunk_step_groups (m : Z) (groups : list (list str)) (cur : list str)
    (w : str) :
  Summarizer.chunk_step m (map J groups, cur) w =
  (map J (fst (group_step m (groups, cur) w)),
   snd (group_step m (groups, cur) w)).
Proof.
  unfold Summarizer.chunk_step, group_step.
  destruct (len (J (cur ++ [w])) >? m)%Z; simpl; [|reflexivity].
  now rewrite removelast_last, map_app.
Qed.

Lemma chunk_fold_groups (m : Z) (ws : list str) (groups : list (list str))
    (cur : list str) :
  fold_left (Summarizer.chunk_step m) ws (map J groups, cur) =
  (map J (fst (fold_left (group_step m) ws (groups, cur))),
   snd (fold_left (group_step m) ws (groups, cur))).
Proof.
  revert groups cur. induction ws as [|w ws IH]; intros groups cur;
    [reflexivity|].
  cbn [fold_left]. rewrite chunk_step_groups.
  destruct (group_step m (groups, cur) w) as [g c]. apply IH.
Qed.

Lemma chunks_of_groups (text : str) (m : Z) :
  Summarizer._split_text_into_chunks text m
  = map J (final_groups m (split text)).
Proof.
  unfold Summarizer._split_text_into_chunks, final_groups.
  pose proof (chunk_fold_groups m (split text) [] []) as E.
  cbn [map] in E. rewrite E. clear E.
  destruct (fold_left (group_step m) (split text) ([], [])) as [g c].
  simpl. destruct c; [reflexivity|]. now rewrite map_app.
Qed.

(** The groups partition the words in order. *)
Lemma group_fold_concat (m : Z) (ws : list str) (g : list (list str))
    (c : list str) :
  List.concat (fst (fold_left (group_step m) ws (g, c)))
    ++ snd (fold_left (group_step m) ws (g, c))
  = List.concat g ++ c ++ ws.
Proof.
  revert g c. induction ws as [|w ws IH]; intros g c.
  - simpl. now rewrite app_nil_r.
  - cbn [fold_left]. rewrite !group_step_eq.
    destruct (len (J (c ++ [w])) >? m)%Z; rewrite IH.
    + rewrite concat_app. simpl. now rewrite app_nil_r, <- app_assoc.
    + now rewrite <- app_assoc.
Qed.

Lemma final_groups_concat (m : Z) (ws : list str) :
  List.concat (final_groups m ws) = ws.
Proof.
  unfold final_groups.
  pose proof (group_fold_concat m ws [] []) as E.
  destruct (fold_left (group_step m) ws ([], [])) as [g c]. simpl in *.
  destruct c; [now rewrite app_nil_r in E|].
  rewrite concat_app. simpl. now rewrite app_nil_r.
Qed.

(** Groups are only ever added at the end. *)
Lemma group_fold_prefix (m : Z) (ws : list str) (g : list (list str))
    (c : list str) :
  fold_left (group_step m) ws (g, c) =
  (g ++ fst (fold_left (group_step m) ws ([], c)),
   snd (fold_left (group_step m) ws ([], c))).
Proof.
  revert g c. induction ws as [|w ws IH]; intros g c.
  - simpl. now rewrite app_nil_r.
  - cbn [fold_left]. rewrite !group_step_eq.
    destruct (len (J (c ++ [w])) >? m)%Z.
    + rewrite IH. rewrite (IH ([] ++ [c])). simpl. now rewrite <- app_assoc.
    + apply IH.
Qed.

(** Once the current chunk holds a word, no empty group is produced. *)
Lemma group_fold_nonempty (m : Z) (ws : list str) (g : list (list str))
    (c : list str) :
  c <> [] -> Forall (fun grp => grp <> []) g ->
  snd (fold_left (group_step m) ws (g, c)) <> []
  /\ Forall (fun grp => grp <> []) (fst (fold_left (group_step m) ws (g, c))).
Proof.
  revert g c. induction ws as [|w ws IH]; intros g c Hc Hg; [now split|].
  cbn [fold_left]. rewrite !group_step_eq.
  destruct (len (J (c ++ [w])) >? m)%Z; apply IH.
  - discriminate.
  - apply Forall_app. split; [assumption | now constructor].
  - now destruct c.
  - assumption.
Qed.

Lemma group_fold_fits (m : Z) (ws : list str) (g : list (list str))
    (c : list str) :
  fits m c -> Forall (fits m) g ->
  fits m (snd (fold_left (group_step m) ws (g, c)))
  /\ Forall (fits m) (fst (fold_left (group_step m) ws (g, c))).
Proof.
  revert g c. induction ws as [|w ws IH]; intros g c Hc Hg; [now split|].
  cbn [fold_left]. rewrite !group_step_eq.
  destruct (len (J (c ++ [w])) >? m)%Z eqn:Hlen; apply IH.
  - right. now exists w.
  - apply Forall_app. split; [assumption | now constructor].
  - left. rewrite Z.gtb_ltb in Hlen. now apply Z.ltb_ge in Hlen.
  - assumption.
Qed.

Lemma final_groups_fit (m : Z) (ws : list str) :
  (0 <= m)%Z -> Forall (fits m) (final_groups m ws).
Proof.
  intros Hm. unfold final_groups.
  destruct (@group_fold_fits m ws [] []) as [Hc Hg];
    [now left | constructor |].
  destruct (fold_left (group_step m) ws ([], [])) as [g c]. simpl in *.
  destruct c; [assumption|].
  apply Forall_app. split; [assumption | now constructor].
Qed.

(** When the first word fits, no group is empty. *)
Lemma final_groups_nonempty (m : Z) (w : str) (ws : list str) :
  (len w <= m)%Z -> Forall (fun grp => grp <> []) (final_groups m (w :: ws)).
Proof.
  intros Hw. unfold final_groups. cbn [fold_left]. rewrite !group_step_eq.
  simpl app. change (J [w]) with w.
  destruct (Z.gtb_spec (len w) m) as [Hgt | _]; [lia|].
  destruct (@group_fold_nonempty m ws [] [w]) as [Hc Hg];
    [discriminate | constructor |].
  destruct (fold_left (group_step m) ws ([], [w])) as [g c]. simpl in *.
  destruct c; [congruence|].
  apply Forall_app. split; [assumption | constructor; [discriminate | constructor]].
Qed.

(** When the first word alone is too long, the empty current chunk is
    closed first: the first group is empty, no other is. *)
Lemma final_groups_overflow (m : Z) (w : str) (ws : list str) :
  (m < len w)%Z ->
  exists gs, final_groups m (w :: ws) = [] :: gs
             /\ gs <> [] /\ Forall (fun grp => grp <> []) gs.
Proof.
  intros Hw. unfold final_groups. cbn [fold_left]. rewrite !group_step_eq.
  simpl app. change (J [w]) with w.
  destruct (Z.gtb_spec (len w) m) as [_ | Hle]; [|lia].
  rewrite group_fold_prefix.
  destruct (@group_fold_nonempty m ws [] [w]) as [Hc Hg];
    [discriminate | constructor |].
  destruct (fold_left (group_step m) ws ([], [w])) as [g c]. simpl in *.
  destruct c as [|x c]; [congruence|].
  exists (g ++ [x :: c]). split; [reflexivity|]. split.
  - now destruct g.
  - apply Forall_app. split; [assumption | constructor; [discriminate | constructor]].
Qed.

Lemma Forall_concat_inv (A : Type) (P : A -> Prop) (gs : list (list A)) :
  Forall P (List.concat gs) -> Forall (Forall P) gs.
Proof.
  induction gs as [|g gs IH]; [constructor|].
  simpl. intros H. apply Forall_app in H as [Hg Hgs].
  constructor; [assumption | now apply IH].
Qed.

Lemma map_split_join (gs : list (list str)) :
  Forall (Forall token) gs -> map split (map J gs) = gs.
Proof.
  induction 1 as [|g gs Hg Hgs IH]; [reflexivity|].
  simpl. now rewrite split_join, IH.
Qed.

(** X1: no word is split or lost: the tokens of the chunks, in order, are
    the tokens of the text. *)
Lemma chunks_keep_words (text : str) (m : Z) :
  List.concat (map split (Summarizer._split_text_into_chunks text m))
  = split text.
Proof.
  rewrite chunks_of_groups, map_split_join; [apply final_groups_concat|].
  apply Forall_concat_inv. rewrite final_groups_concat. apply split_tokens.
Qed.

(** X2: for a [max_length] that is not negative, a chunk longer than
    [max_length] is one word of the text. *)
Lemma chunks_bounded (text : str) (m : Z) (chunk : str) :
  (0 <= m)%Z ->
  In chunk (Summarizer._split_text_into_chunks text m) ->
  (m < len chunk)%Z ->
  In chunk (split text).
Proof.
  intros Hm Hin Hlen. rewrite chunks_of_groups in Hin.
  apply in_map_iff in Hin as [grp [<- Hgrp]].
  pose proof (@final_groups_fit m (split text) Hm) as Hfit.
  rewrite Forall_forall in Hfit. destruct (Hfit _ Hgrp) as [Hle | [w ->]];
    [lia|].
  rewrite <- (final_groups_concat m (split text)).
  apply in_concat. exists [w]. split; [assumption | now left].
Qed.

(** X3: when the text has no word, or its first word is at most
    [max_length] characters long, the chunks joined by a space are the
    normalised text. *)
Lemma chunks_join_fits (text : str) (m : Z) :
  match split text with
  | [] => True
  | w :: _ => (len w <= m)%Z
  end ->
  join (lit " ") (Summarizer._split_text_into_chunks text m)
  = join (lit " ") (split text).
Proof.
  intros Hfirst. rewrite chunks_of_groups.
  destruct (split text) as [|w ws] eqn:E; [reflexivity|].
  rewrite join_groups by now apply final_groups_nonempty.
  now rewrite final_groups_concat.
Qed.

(** When the first word is longer than [max_length], an empty chunk comes
    first and the joined chunks start with a space. *)
Lemma chunks_join_overflow (text : str) (m : Z) (w : str) (ws : list str) :
  split text = w :: ws -> (m < len w)%Z ->
  (exists rest, Summarizer._split_text_into_chunks text m = [] :: rest)
  /\ join (lit " ") (Summarizer._split_text_into_chunks text m)
     = SP :: join (lit " ") (split text).
Proof.
  intros E Hw. rewrite chunks_of_groups, E.
  destruct (@final_groups_overflow m w ws Hw) as [gs [Egs [Hne Hgs]]].
  pose proof (final_groups_concat m (w :: ws)) as Hcat.
  rewrite Egs in Hcat |- *. simpl in Hcat. split; [now eexists|].
  destruct gs as [|g gs]; [congruence|].
  change (J (map J ([] :: g :: gs))) with (SP :: J (map J (g :: gs))).
  now rewrite join_groups, Hcat.
Qed.

Lemma chunks_bounded_witness :
  In (lit "bcdefg") (split (lit "a bcdefg hij")).
Proof.
  apply (@chunks_bounded (lit "a bcdefg hij") 3 (lit "bcdefg")).
  - lia.
  - simpl. tauto.
  - reflexivity.
Defined.

Lemma chunks_join_fits_witness :
  join (lit " ") (Summarizer._split_text_into_chunks (lit "ab  cd ef gh") 5)
  = join (lit " ") (split (lit "ab  cd ef gh")).
Proof.
  apply (@chunks_join_fits (lit "ab  cd ef gh") 5).
  simpl. unfold len. simpl. lia.
Defined.

End ChunkFacts.

(** * The summariser: chunking, preprocessing and dispatch *)

Module SummarizerSpec.

Import Py PyFacts SubFacts PreprocessFacts ChunkFacts.

Lemma str_eqb_eq (a b : str) : str_eqb a b = true <-> a = b.
Proof.
  unfold str_eqb. destruct (list_eq_dec N.eq_dec a b); split;
    congruence.
Qed.

Lemma str_eqb_neq (a b : str) : a <> b -> str_eqb a b = false.
Proof.
  intros Hne. unfold str_eqb. destruct (list_eq_dec N.eq_dec a b);
    [contradiction | reflexivity].
Qed.

(** C1: with [max_length = 3] the one-word text ["abcdef"] is cut into an
    empty chunk followed by the word, so the chunks joined by a space are
    [" abcdef"] and not the normalised text ["abcdef"]; the same happens
    for every text whose first word is longer than [max_length]. *)
Theorem split_text_into_chunks_leading_empty_chunk :
  Summarizer._split_text_into_chunks (lit "abcdef") 3
    = [lit ""; lit "abcdef"]
  /\ join (lit " ") (Summarizer._split_text_into_chunks (lit "abcdef") 3)
     = lit " abcdef"
  /\ join (lit " ") (Summarizer._split_text_into_chunks (lit "abcdef") 3)
     <> join (lit " ") (split (lit "abcdef"))
  /\ (forall (text : str) (max_length : Z) (w : str) (ws : list str),
        split text = w :: ws -> (max_length < len w)%Z ->
        join (lit " ") (Summarizer._split_text_into_chunks text max_length)
        = SP :: join (lit " ") (split text)).
Proof.
  split; [reflexivity|]. split; [reflexivity|]. split; [discriminate|].
  intros text max_length w ws E Hw.
  apply (proj2 (chunks_join_overflow text E Hw)).
Qed.

Section WithModels.

Variable U : Unicode.
Variable textrank : str -> Z -> result (list str).
Variable abstractive_summarization : str -> result str.

Local Abbreviation preprocess_text := (Summarizer.preprocess_text U).
Local Abbreviation extractive_summarization :=
  (Summarizer.extractive_summarization textrank).
Local Abbreviation generate_summary :=
  (Summarizer.generate_summary U textrank abstractive_summarization).

(** A text without tokens never gets a result: the ratio is computed
    last, and its divisor is the number of tokens of the text. *)
Lemma generate_summary_no_tokens (text method : str) (r : Summarizer.summary_result) :
  split text = [] -> generate_summary text method <> inr r.
Proof.
  intros Hno. unfold Summarizer.generate_summary. rewrite Hno.
  match goal with
  | |- bind ?c _ <> _ => destruct c as [e | s]
  end; simpl; discriminate.
Qed.

Lemma generate_summary_no_tokens_extractive (text : str) :
  split text = [] ->
  generate_summary text (lit "extractive") = inl ZeroDivisionError.
Proof.
  intros Hno. unfold Summarizer.generate_summary. now rewrite Hno.
Qed.

(** C2: on the empty string, with the extractive method (which cannot
    raise), [generate_summary] raises [ZeroDivisionError]: the division by
    the token count of the text is not guarded.  The same holds for every
    text without a token, and no method returns a result for such a
    text. *)
Theorem generate_summary_empty_string_divides_by_zero :
  generate_summary (lit "") (lit "extractive") = inl ZeroDivisionError
  /\ (forall text : str,
        split text = [] ->
        generate_summary text (lit "extractive") = inl ZeroDivisionError)
  /\ (forall (text method : str) (r : Summarizer.summary_result),
        split text = [] -> generate_summary text method <> inr r).
Proof.
  split; [reflexivity|]. split.
  - apply generate_summary_no_tokens_extractive.
  - intros text method r. apply generate_summary_no_tokens.
Qed.

(** C3, as amended: applying [preprocess_text] to its own output collapses
    the runs of spaces that the removal of special characters left, so the
    output is reproduced exactly when it is single spaced; that is the case
    for every text without special characters, and a third application
    never changes the result of the second. *)
Theorem preprocess_text_second_pass (text : str) :
  preprocess_text (preprocess_text text)
    = re_sub_plus isspace (lit " ") (preprocess_text text)
  /\ (preprocess_text (preprocess_text text) = preprocess_text text
      <-> single_spaced (preprocess_text text) = true)
  /\ ((forall c, In c text -> Summarizer.special U c = false) ->
      preprocess_text (preprocess_text text) = preprocess_text text)
  /\ preprocess_text (preprocess_text (preprocess_text text))
     = preprocess_text (preprocess_text text).
Proof.
  split; [apply preprocess_text_twice|].
  split; [rewrite preprocess_text_twice; apply collapse_fixed_iff|].
  split; [|apply preprocess_text_thrice].
  intros Hs. rewrite preprocess_text_twice.
  now apply collapse_fixed_iff, preprocess_text_single_spaced.
Qed.

(** C5, as amended: [preprocess_text] collapses every run of whitespace
    into one space, removes every character outside word characters,
    whitespace and [. , ; : ! ?], drops every line with 3 or fewer tokens,
    joins the remaining lines and strips the result; no newline survives the
    first step, so the text is kept or dropped as a single line. *)
Theorem preprocess_text_three_steps_then_strip (text : str) :
  preprocess_text text = strip (Spec.preprocess U text)
  /\ preprocess_text text
     = if (3 <? len (split (cleaned U text)))%Z
       then strip (cleaned U text) else [].
Proof.
  split; [apply preprocess_text_steps | apply preprocess_text_single_line].
Qed.

(** C6: a method other than ["extractive"], ["abstractive"] and ["hybrid"]
    makes [generate_summary] raise [ValueError], whatever the text. *)
Theorem generate_summary_unknown_method (text method : str) :
  method <> lit "extractive" ->
  method <> lit "abstractive" ->
  method <> lit "hybrid" ->
  generate_summary text method = inl ValueError.
Proof.
  intros He Ha Hh. unfold Summarizer.generate_summary.
  now rewrite (str_eqb_neq He), (str_eqb_neq Ha), (str_eqb_neq Hh).
Qed.

End WithModels.

(** C3: ["a & b c d"] is preprocessed to ["a  b c d"] (the ampersand goes,
    its two spaces stay), and that to ["a b c d"]. *)
Lemma preprocess_text_not_idempotent :
  Summarizer.preprocess_text ascii_table
    (Summarizer.preprocess_text ascii_table (lit "a & b c d"))
  <> Summarizer.preprocess_text ascii_table (lit "a & b c d").
Proof. vm_compute. discriminate. Qed.

(** C5: the three steps leave [" a b c d"] as it is, while
    [preprocess_text] returns it without the leading space. *)
Lemma preprocess_text_strips_result :
  Summarizer.preprocess_text ascii_table (lit " a b c d")
  <> Spec.preprocess ascii_table (lit " a b c d").
Proof. vm_compute. discriminate. Qed.

(** The method ["textrank"] is not one of the three. *)
Lemma generate_summary_unknown_method_witness :
  Demo.generate_summary (lit "some text to summarise") (lit "textrank")
  = inl ValueError.
Proof.
  apply (generate_summary_unknown_method Py.ascii_table Demo.textrank
           Summarizer.undefined_method (lit "some text to summarise")
           (method := lit "textrank")); discriminate.
Defined.

(** C9: on the class as shipped the method ["hybrid"] produces no summary:
    after the extractive pass, line 104 looks up
    [self.abstractive_summarization], which the class does not define, and
    [AttributeError] is raised, for every text and whatever TextRank does.
    The method ["abstractive"] fails in the same way at line 100. *)
Theorem generate_summary_hybrid_undefined_method
    (U : Unicode) (textrank : str -> Z -> result (list str)) (text : str) :
  Summarizer.generate_summary U textrank Summarizer.undefined_method
    text (lit "hybrid") = inl AttributeError
  /\ Summarizer.generate_summary U textrank Summarizer.undefined_method
       text (lit "abstractive") = inl AttributeError.
Proof.
  unfold Summarizer.generate_summary.
  change (str_eqb (lit "hybrid") (lit "extractive")) with false.
  change (str_eqb (lit "hybrid") (lit "abstractive")) with false.
  change (str_eqb (lit "hybrid") (lit "hybrid")) with true.
  change (str_eqb (lit "abstractive") (lit "extractive")) with false.
  change (str_eqb (lit "abstractive") (lit "abstractive")) with true.
  split; reflexivity.
Qed.

End SummarizerSpec.

(** * The extractor: dispatch and counts *)

Module ExtractorSpec.

Import Py PyFacts TextExtractor.

(** A text that ends in whitespace loses at least one character when
    stripped. *)
Lemma ends_clean_app (a b : str) :
  b <> [] -> ends_clean (a ++ b) = ends_clean b.
Proof.
  intros Hb. unfold ends_clean. rewrite rev_app_distr.
  destruct (rev b) eqn:E; [|reflexivity].
  apply (f_equal (@rev char)) in E. rewrite rev_involutive in E. contradiction.
Qed.

Lemma strip_shorter (s : str) :
  ends_clean s = false -> (len (strip s) < len s)%Z.
Proof.
  intros Hs. unfold strip, len.
  destruct (lstrip_spec s) as [ws0 [E0 _]].
  destruct (rstrip_spec (lstrip s)) as [ws [E _]].
  assert (List.length s
          = (List.length ws0 + (List.length (rstrip (lstrip s))
                                + List.length ws))%nat) as Hlen.
  { rewrite E0 at 1. rewrite E at 1. now rewrite !length_app. }
  destruct ws as [|w ws]; [|simpl in Hlen; lia].
  rewrite app_nil_r in E.
  destruct (lstrip s) as [|c l] eqn:El.
  - rewrite app_nil_r in E0. subst ws0. destruct s; [discriminate|].
    simpl. lia.
  - exfalso. rewrite E0, ends_clean_app in Hs by discriminate.
    rewrite E in Hs. rewrite <- El in Hs.
    now rewrite ends_clean_rstrip in Hs.
Qed.

Section WithHost.

Variable H : Host.

(** Both page loops leave the text empty or ending in a newline. *)
Lemma newline_ended_append (s t : str) : newline_ended (s ++ t ++ [NL]).
Proof.
  right. rewrite app_assoc. now rewrite ends_clean_snoc.
Qed.

Lemma plumber_text_newline_ended (pgs : list (result (option str)))
    (s s' : str) :
  newline_ended s -> plumber_text pgs s = inr s' -> newline_ended s'.
Proof.
  revert s. induction pgs as [|pg pgs IH]; intros s Hs; simpl.
  - intros E. injection E as <-. exact Hs.
  - destruct pg as [e | [[|c t] |]]; simpl; try discriminate;
      try (now apply IH).
    apply IH, (newline_ended_append s (c :: t)).
Qed.

Lemma pypdf2_text_newline_ended (pgs : list (result str)) (s s' : str) :
  newline_ended s -> pypdf2_text pgs s = inr s' -> newline_ended s'.
Proof.
  revert s. induction pgs as [|pg pgs IH]; intros s Hs; simpl.
  - intros E. injection E as <-. exact Hs.
  - destruct pg as [e | t]; simpl; [discriminate|].
    apply IH, newline_ended_append.
Qed.

(** What a PDF extraction returns, in terms of the text before it is
    stripped. *)
Lemma extract_from_pdf_inv (p : str) (r : extraction) :
  _extract_from_pdf H p = inr r ->
  exists raw, newline_ended raw
              /\ text r = strip raw
              /\ word_count r = len (split raw)
              /\ char_count r = len raw.
Proof.
  unfold _extract_from_pdf.
  destruct (pdfplumber_open H p) as [e | pdf]; simpl; [discriminate|].
  destruct (st_size H p) as [e | size]; simpl; [discriminate|].
  destruct (plumber_text (plumber_pages pdf) []) as [e | raw] eqn:Ep; simpl;
    [discriminate|].
  assert (newline_ended raw) as Hraw
    by (eapply plumber_text_newline_ended; [now left | exact Ep]).
  destruct (strip raw) eqn:Es.
  - destruct (pypdf2_pages H p) as [e | pgs]; simpl; [discriminate|].
    destruct (pypdf2_text pgs raw) as [e | raw'] eqn:Ep'; simpl;
      [discriminate|].
    intros E. injection E as <-. exists raw'. simpl.
    split; [|now repeat split].
    eapply pypdf2_text_newline_ended; [exact Hraw | exact Ep'].
  - simpl. intros E. injection E as <-. exists raw. simpl.
    now repeat split.
Qed.

Lemma extract_from_docx_inv (p : str) (r : extraction) :
  _extract_from_docx H p = inr r ->
  exists raw, text r = strip raw
              /\ word_count r = len (split raw)
              /\ char_count r = len raw.
Proof.
  unfold _extract_from_docx.
  destruct (docx_Document H p) as [e | doc]; simpl; [discriminate|].
  destruct (st_size H p) as [e | size]; simpl; [discriminate|].
  intros E. injection E as <-. eexists. simpl. now repeat split.
Qed.

Lemma extract_text_inv (p : str) (r : extraction) :
  extract_text H p = inr r ->
  exists raw, text r = strip raw
              /\ word_count r = len (split raw)
              /\ char_count r = len raw.
Proof.
  unfold extract_text.
  destruct (path_exists H p) as [e | [|]]; simpl; try discriminate.
  destruct (str_eqb (lower (unicode H) (suffix p)) (lit ".pdf")).
  - intros E. apply extract_from_pdf_inv in E as [raw [_ E]]. now exists raw.
  - destruct (str_eqb (lower (unicode H) (suffix p)) (lit ".docx"));
      [apply extract_from_docx_inv | discriminate].
Qed.

(** X4: the word count of a successful extraction is the number of tokens
    of the returned text. *)
Lemma extract_text_word_count (p : str) (r : extraction) :
  extract_text H p = inr r -> word_count r = len (split (text r)).
Proof.
  intros E. apply extract_text_inv in E as [raw [-> [-> _]]].
  now rewrite split_strip.
Qed.

(** The character count is taken before stripping: it is at least the
    length of the returned text. *)
Lemma extract_text_char_count_ge (p : str) (r : extraction) :
  extract_text H p = inr r -> (len (text r) <= char_count r)%Z.
Proof.
  intros E. apply extract_text_inv in E as [raw [-> [_ ->]]].
  unfold len. apply inj_le, length_strip.
Qed.

(** For a PDF with any text at all, the character count exceeds the
    length of the returned text: the newline appended after the last page
    is counted and then stripped. *)
Lemma extract_from_pdf_char_count_gt (p : str) (r : extraction) :
  _extract_from_pdf H p = inr r -> text r <> [] ->
  (len (text r) < char_count r)%Z.
Proof.
  intros E Hne. apply extract_from_pdf_inv in E as [raw [Hraw [Et [_ ->]]]].
  rewrite Et in *. destruct Hraw as [-> | Hraw]; [now elim Hne|].
  now apply strip_shorter.
Qed.

(** C7, as amended: when [Path.exists()] answers [False], that is when
    [stat] fails with ENOENT, ENOTDIR, EBADF or ELOOP or refuses the path
    with [ValueError], [extract_text] raises [FileNotFoundError], whatever
    the extension; any other error of [stat] leaves [extract_text] as the
    [OSError] it is. *)
Theorem extract_text_missing_file (p : str) :
  (path_exists H p = inr false -> extract_text H p = inl FileNotFoundError)
  /\ (forall errno,
        os_stat H p = StatOSError errno ->
        extract_text H p
        = inl (if ignore_error errno then FileNotFoundError
               else OSError errno))
  /\ (os_stat H p = StatValueError ->
      extract_text H p = inl FileNotFoundError).
Proof.
  unfold extract_text, path_exists. split; [|split].
  - intros Hp. now rewrite Hp.
  - intros errno Hs. rewrite Hs. now destruct (ignore_error errno).
  - intros Hs. now rewrite Hs.
Qed.

(** C8: an existing path whose extension is, lowercased, neither [.pdf]
    nor [.docx] makes [extract_text] raise [ValueError]. *)
Theorem extract_text_unsupported_format (p : str) :
  path_exists H p = inr true ->
  lower (unicode H) (suffix p) <> lit ".pdf" ->
  lower (unicode H) (suffix p) <> lit ".docx" ->
  extract_text H p = inl ValueError.
Proof.
  intros Hp Hpdf Hdocx. unfold extract_text. rewrite Hp. simpl.
  now rewrite (SummarizerSpec.str_eqb_neq Hpdf),
    (SummarizerSpec.str_eqb_neq Hdocx).
Qed.

(** C10: the extension is compared after lowercasing: an existing path
    whose lowercased extension is [.pdf] goes to the PDF extractor, one
    whose lowercased extension is [.docx] to the DOCX extractor. *)
Theorem extract_text_extension_lowercased (p : str) :
  path_exists H p = inr true ->
  (lower (unicode H) (suffix p) = lit ".pdf" ->
   extract_text H p = _extract_from_pdf H p)
  /\ (lower (unicode H) (suffix p) = lit ".docx" ->
      extract_text H p = _extract_from_docx H p).
Proof.
  intros Hp. unfold extract_text. rewrite Hp. simpl.
  split; intros E; rewrite E; reflexivity.
Qed.

End WithHost.

(** C4: the PDF ["report.pdf"] with the single page ["Hello world"] is
    returned with the text ["Hello world"] (11 characters, 2 words), a
    word count of 2 and a character count of 12: the count includes the
    newline that was appended to the page and stripped from the text.  The
    same happens for every PDF whose returned text is not empty. *)
Theorem extract_text_char_count_before_strip :
  (exists r,
      extract_text Demo.host (lit "report.pdf") = inr r
      /\ text r = lit "Hello world"
      /\ word_count r = 2%Z
      /\ len (text r) = 11%Z
      /\ char_count r = 12%Z)
  /\ (forall (H : Host) (p : str) (r : extraction),
        _extract_from_pdf H p = inr r -> text r <> [] ->
        (len (text r) < char_count r)%Z).
Proof.
  split.
  - eexists. split; [reflexivity|]. repeat split; reflexivity.
  - apply extract_from_pdf_char_count_gt.
Qed.

Lemma extract_text_word_count_witness :
  exists r, extract_text Demo.host (lit "minutes.Docx") = inr r
            /\ word_count r = len (split (text r)).
Proof.
  eexists. split; [reflexivity|].
  apply (@extract_text_word_count Demo.host (lit "minutes.Docx")).
  reflexivity.
Defined.

Lemma extract_text_missing_file_witness :
  extract_text Demo.host (lit "missing.pdf") = inl FileNotFoundError.
Proof.
  apply (proj1 (extract_text_missing_file Demo.host (lit "missing.pdf"))).
  reflexivity.
Defined.

(** C7: no file can have the 304 characters long name [a...a.pdf]; [stat]
    refuses it with ENAMETOOLONG, which [Path.exists()] does not ignore,
    and [extract_text] raises that [OSError], not [FileNotFoundError]. *)
Lemma extract_text_name_too_long :
  os_stat Demo.host Demo.long_name = StatOSError ENAMETOOLONG
  /\ extract_text Demo.host Demo.long_name = inl (OSError ENAMETOOLONG)
  /\ extract_text Demo.host Demo.long_name <> inl FileNotFoundError.
Proof.
  split; [vm_compute; reflexivity|].
  split; [vm_compute; reflexivity | vm_compute; discriminate].
Qed.

Lemma extract_text_unsupported_format_witness :
  extract_text Demo.host (lit "notes.txt") = inl ValueError.
Proof.
  apply (extract_text_unsupported_format Demo.host (lit "notes.txt"));
    [reflexivity | discriminate | discriminate].
Defined.

Lemma extract_text_extension_lowercased_witness :
  extract_text Demo.host (lit "REPORT.PDF")
    = _extract_from_pdf Demo.host (lit "REPORT.PDF")
  /\ extract_text Demo.host (lit "minutes.Docx")
     = _extract_from_docx Demo.host (lit "minutes.Docx").
Proof.
  split.
  - apply (proj1 (extract_text_extension_lowercased Demo.host
                    (lit "REPORT.PDF") eq_refl)).
    reflexivity.
  - apply (proj2 (extract_text_extension_lowercased Demo.host
                    (lit "minutes.Docx") eq_refl)).
    reflexivity.
Defined.

End ExtractorSpec.

(** * More on [preprocess_text] *)

Module PreprocessProps.

Import Py PyFacts SubFacts PreprocessFacts.

Local Abbreviation collapse_from := (re_sub_plus_from isspace (lit " ")).

Lemma length_collapse_from (b : bool) (s : str) :
  (List.length (collapse_from b s) <= List.length s)%nat.
Proof.
  revert b. induction s as [|c s IH]; intros b; [reflexivity|].
  simpl. destruct (isspace c).
  - rewrite length_app. specialize (IH true). destruct b; simpl; lia.
  - simpl. specialize (IH false). lia.
Qed.

Lemma length_re_sub_char (cls : char -> bool) (s : str) :
  (List.length (re_sub_char cls [] s) <= List.length s)%nat.
Proof.
  induction s as [|c s IH]; [reflexivity|].
  simpl. destruct (cls c); simpl; lia.
Qed.

Lemma length_flush (acc acc' : str) :
  (acc = [] -> acc' = []) ->
  (List.length (flush acc') <= List.length (flush acc))%nat.
Proof.
  destruct acc as [|a acc]; intros Hacc.
  - now rewrite Hacc.
  - destruct acc'; simpl; lia.
Qed.

(** Removing characters that are not whitespace never adds a token. *)
Lemma split_from_re_sub_char (cls : char -> bool) (s acc acc' : str) :
  (forall c, cls c = true -> isspace c = false) ->
  (acc = [] -> acc' = []) ->
  (List.length (split_from acc' (re_sub_char cls [] s))
   <= List.length (split_from acc s))%nat.
Proof.
  intros Hcls. revert acc acc'.
  induction s as [|c s IH]; intros acc acc' Hacc; simpl.
  - now apply length_flush.
  - destruct (cls c) eqn:Hc; simpl.
    + rewrite (Hcls c Hc). apply IH. intros E. now destruct acc.
    + destruct (isspace c).
      * rewrite !length_app. pose proof (length_flush Hacc).
        specialize (IH [] [] (fun _ => eq_refl)). lia.
      * apply IH. intros E. now destruct acc.
Qed.

Section WithTables.

Variable U : Unicode.

Local Abbreviation preprocess_text := (Summarizer.preprocess_text U).

Lemma special_nonspace (c : char) :
  Summarizer.special U c = true -> isspace c = false.
Proof.
  unfold Summarizer.special. intros Hc. apply negb_true_iff in Hc.
  apply orb_false_elim in Hc as [Hc _].
  now apply orb_false_elim in Hc as [_ Hc].
Qed.

Lemma split_cleaned_le (s : str) :
  (len (split (cleaned U s)) <= len (split s))%Z.
Proof.
  unfold cleaned, len, split. apply inj_le.
  etransitivity.
  - apply (@split_from_re_sub_char (Summarizer.special U) _ [] []);
      [apply special_nonspace | reflexivity].
  - fold (split (re_sub_plus isspace (lit " ") s)).
    now rewrite split_collapse.
Qed.

(** X5: every character of the output of [preprocess_text] is a word
    character, a space or one of [. , ; : ! ?]; the output has no newline
    and no whitespace at either end, and it is empty or has more than 3
    tokens. *)
Theorem preprocess_text_output_shape (text : str) :
  (forall c, In c (preprocess_text text) ->
     isword U c || (c =? SP)%N || Summarizer.punctuation c = true)
  /\ ~ In NL (preprocess_text text)
  /\ starts_clean (preprocess_text text) = true
  /\ ends_clean (preprocess_text text) = true
  /\ (preprocess_text text = []
      \/ (3 < len (split (preprocess_text text)))%Z).
Proof.
  assert (forall c, In c (preprocess_text text) -> In c (cleaned U text))
    as Hin.
  { intros c. rewrite preprocess_text_single_line.
    destruct (3 <? len (split (cleaned U text)))%Z; [apply In_strip | intros []]. }
  destruct (preprocess_text_settled U text) as (_ & Hs & He & Hlen).
  split; [|split; [|now repeat split]].
  - intros c Hc. apply Hin, cleaned_In in Hc as [Hsp Hc].
    unfold Summarizer.special in Hsp. apply negb_false_iff in Hsp.
    destruct Hc as [-> | Hc]; [reflexivity|].
    rewrite Hc, orb_false_r in Hsp.
    apply orb_prop in Hsp as [-> | ->]; [reflexivity|].
    now rewrite orb_true_r.
  - intros Hc. now apply Hin, cleaned_no_newline in Hc.
Qed.

(** X6: a text with 3 or fewer tokens is preprocessed to the empty
    string. *)
Theorem preprocess_text_short_text (text : str) :
  (len (split text) <= 3)%Z -> preprocess_text text = [].
Proof.
  intros Hlen. rewrite preprocess_text_single_line.
  pose proof (split_cleaned_le text).
  destruct (Z.ltb_spec 3 (len (split (cleaned U text)))); [lia | reflexivity].
Qed.

(** X7: preprocessing adds neither characters nor tokens. *)
Theorem preprocess_text_shrinks (text : str) :
  (len (preprocess_text text) <= len text)%Z
  /\ (len (split (preprocess_text text)) <= len (split text))%Z.
Proof.
  rewrite preprocess_text_single_line.
  destruct (3 <? len (split (cleaned U text)))%Z.
  - split.
    + unfold len. apply inj_le.
      etransitivity; [apply length_strip|].
      unfold cleaned. etransitivity; [apply length_re_sub_char|].
      apply length_collapse_from.
    + rewrite split_strip. apply split_cleaned_le.
  - unfold len. simpl. lia.
Qed.

End WithTables.

Lemma preprocess_text_short_text_witness :
  Summarizer.preprocess_text ascii_table (lit "only three words") = [].
Proof.
  apply (@preprocess_text_short_text ascii_table (lit "only three words")).
  vm_compute. discriminate.
Defined.

End PreprocessProps.

(** * More on [_split_text_into_chunks] *)

Module ChunkProps.

Import Py PyFacts ChunkFacts.

Local Abbreviation J := (join (lit " ")).

Lemma length_join_prefix (a b : list str) :
  (len (J a) <= len (J (a ++ b)))%Z.
Proof.
  unfold len. apply inj_le.
  destruct a as [|x a]; [simpl; lia|].
  destruct b as [|y b]; [now rewrite app_nil_r|].
  rewrite join_app by discriminate. rewrite length_app. lia.
Qed.

(** As long as everything read so far fits, nothing is closed. *)
Lemma group_fold_all_fit (m : Z) (ws c : list str) :
  (len (J (c ++ ws)) <= m)%Z ->
  fold_left (group_step m) ws ([], c) = ([], c ++ ws).
Proof.
  revert c. induction ws as [|w ws IH]; intros c Hfit.
  - simpl. now rewrite app_nil_r.
  - cbn [fold_left]. rewrite group_step_eq.
    pose proof (length_join_prefix (c ++ [w]) ws) as Hpre.
    rewrite <- app_assoc in Hpre. simpl app in Hpre.
    destruct (Z.gtb_spec (len (J (c ++ [w]))) m) as [Hgt | _]; [lia|].
    rewrite IH; rewrite <- app_assoc; [reflexivity | exact Hfit].
Qed.

(** X8: when the normalised text is at most [max_length] characters long,
    it is returned as the only chunk, and a text without words gives no
    chunk at all. *)
Theorem chunks_single_when_text_fits (text : str) (max_length : Z) :
  (len (join (lit " ") (split text)) <= max_length)%Z ->
  Summarizer._split_text_into_chunks text max_length
  = match split text with
    | [] => []
    | _ => [join (lit " ") (split text)]
    end.
Proof.
  intros Hfit. rewrite chunks_of_groups. unfold final_groups.
  rewrite (@group_fold_all_fit max_length (split text) []) by exact Hfit.
  simpl. now destruct (split text).
Qed.

(** Every group of words is made of tokens, so that splitting its chunk
    gives the group back. *)
Lemma final_groups_tokens (m : Z) (text : str) :
  Forall (Forall token) (final_groups m (split text)).
Proof.
  apply Forall_concat_inv. rewrite final_groups_concat. apply split_tokens.
Qed.

(** X9: every chunk is whitespace-normalised: it is its own words joined
    by single spaces. *)
Theorem chunks_normalised (text : str) (max_length : Z) :
  Forall (fun chunk => join (lit " ") (split chunk) = chunk)
         (Summarizer._split_text_into_chunks text max_length).
Proof.
  rewrite chunks_of_groups. apply Forall_map.
  eapply Forall_impl; [|apply final_groups_tokens].
  intros g Hg. simpl. now rewrite split_join.
Qed.

(** *** Greedy packing *)

Lemma greedy_snoc (m : Z) (l : list (list str)) (g : list str) (w : str)
    (g' : list str) :
  greedy m (l ++ [g]) ->
  (m < len (J (g ++ [w])))%Z ->
  greedy m (l ++ [g] ++ [w :: g']).
Proof.
  intros Hl Hw. induction l as [|a l IH].
  - simpl. tauto.
  - change ((a :: l) ++ [g] ++ [w :: g']) with (a :: (l ++ [g] ++ [w :: g'])).
    change ((a :: l) ++ [g]) with (a :: (l ++ [g])) in Hl.
    cbn [greedy] in Hl |- *. destruct Hl as [Ha Hl]. split; [|now apply IH].
    destruct l as [|b l]; [exact Ha|]. exact Ha.
Qed.

Lemma greedy_extend_last (m : Z) (l : list (list str)) (g x : list str) :
  g <> [] -> greedy m (l ++ [g]) -> greedy m (l ++ [g ++ x]).
Proof.
  intros Hg. induction l as [|a l IH]; intros Hl.
  - simpl. tauto.
  - change ((a :: l) ++ [g ++ x]) with (a :: (l ++ [g ++ x])).
    change ((a :: l) ++ [g]) with (a :: (l ++ [g])) in Hl.
    cbn [greedy] in Hl |- *. destruct Hl as [Ha Hl]. split; [|now apply IH].
    destruct l as [|b l]; [|exact Ha].
    destruct g as [|w g]; [congruence | exact Ha].
Qed.

Lemma group_fold_greedy (m : Z) (ws : list str) (gs : list (list str))
    (c : list str) :
  (c = [] -> gs = []) -> greedy m (gs ++ [c]) ->
  (snd (fold_left (group_step m) ws (gs, c)) = [] ->
   fst (fold_left (group_step m) ws (gs, c)) = [])
  /\ greedy m (fst (fold_left (group_step m) ws (gs, c))
               ++ [snd (fold_left (group_step m) ws (gs, c))]).
Proof.
  revert gs c. induction ws as [|w ws IH]; intros gs c Hc Hg; [now split|].
  cbn [fold_left]. rewrite group_step_eq.
  destruct (Z.gtb_spec (len (J (c ++ [w]))) m) as [Hgt | Hle]; apply IH.
  - discriminate.
  - rewrite <- app_assoc. now apply greedy_snoc.
  - intros E. now destruct c.
  - destruct c as [|x c]; [|now apply greedy_extend_last].
    rewrite (Hc eq_refl). simpl. tauto.
Qed.

Lemma final_groups_greedy (m : Z) (ws : list str) :
  greedy m (final_groups m ws).
Proof.
  unfold final_groups.
  destruct (@group_fold_greedy m ws [] []) as [Hc Hg];
    [reflexivity | simpl; tauto |].
  destruct (fold_left (group_step m) ws ([], [])) as [gs c]. simpl in *.
  destruct c; [|exact Hg]. now rewrite Hc.
Qed.

Lemma greedy_adjacent (m : Z) (a : list (list str)) (g : list str) (w : str)
    (g' : list str) (b : list (list str)) :
  greedy m (a ++ g :: (w :: g') :: b) -> (m < len (J (g ++ [w])))%Z.
Proof.
  induction a as [|x a IH]; intros Hg.
  - simpl in Hg. tauto.
  - apply IH. change ((x :: a) ++ g :: (w :: g') :: b)
      with (x :: (a ++ g :: (w :: g') :: b)) in Hg.
    cbn [greedy] in Hg. tauto.
Qed.

(** X10: the packing is greedy: the words of a chunk together with the
    first word of the chunk after it, joined by single spaces, are longer
    than [max_length]. *)
Theorem chunks_greedy (text : str) (max_length : Z)
    (before : list str) (chunk next : str) (after : list str)
    (w : str) (ws : list str) :
  Summarizer._split_text_into_chunks text max_length
    = before ++ chunk :: next :: after ->
  split next = w :: ws ->
  (max_length < len (join (lit " ") (split chunk ++ [w])))%Z.
Proof.
  intros E Hnext. rewrite chunks_of_groups in E.
  pose proof (final_groups_tokens max_length text) as Htok.
  pose proof (final_groups_greedy max_length (split text)) as Hgreedy.
  apply map_eq_app in E as (ga & gb & Eg & Ea & Eb).
  destruct gb as [|g gb]; [discriminate|]. injection Eb as Ec Eb.
  destruct gb as [|g' gb]; [discriminate|]. injection Eb as Ec' Eb.
  rewrite Eg in Htok, Hgreedy.
  apply Forall_app in Htok as [_ Htok].
  inversion Htok as [|? ? Hg Htok']; subst.
  inversion Htok' as [|? ? Hg' _]; subst.
  rewrite split_join in Hnext |- * by assumption. subst g'.
  now apply greedy_adjacent in Hgreedy.
Qed.

Lemma chunks_single_when_text_fits_witness :
  Summarizer._split_text_into_chunks (lit " hello   world ") 11
  = [lit "hello world"].
Proof.
  apply (@chunks_single_when_text_fits (lit " hello   world ") 11).
  vm_compute. discriminate.
Defined.

Lemma chunks_greedy_witness :
  (5 < len (join (lit " ") (split (lit "ab cd") ++ [lit "ef"])))%Z.
Proof.
  apply (@chunks_greedy (lit "ab cd ef gh") 5 [] (lit "ab cd") (lit "ef gh")
           [] (lit "ef") [lit "gh"]); reflexivity.
Defined.

End ChunkProps.

(** * More on [generate_summary] *)

Module DispatchProps.

Import Py PyFacts.

Section WithModels.

Variable U : Unicode.
Variable textrank : str -> Z -> result (list str).
Variable abstractive_summarization : str -> result str.

Local Abbreviation preprocess_text := (Summarizer.preprocess_text U).
Local Abbreviation extractive_summarization :=
  (Summarizer.extractive_summarization textrank).
Local Abbreviation generate_summary :=
  (Summarizer.generate_summary U textrank abstractive_summarization).

Lemma len_split_pos (text : str) :
  split text <> [] -> (len (split text) =? 0)%Z = false.
Proof.
  intros Hne. apply Z.eqb_neq. unfold len.
  destruct (split text); [congruence | discriminate].
Qed.

(** What a returned result says about the call. *)
Lemma generate_summary_inv (text method : str) (r : Summarizer.summary_result) :
  generate_summary text method = inr r ->
  (method = lit "extractive" \/ method = lit "abstractive"
   \/ method = lit "hybrid")
  /\ split text <> []
  /\ r = {| Summarizer.summary := Summarizer.summary r;
            Summarizer.original_length := len (split text);
            Summarizer.summary_length := len (split (Summarizer.summary r));
            Summarizer.compression_ratio := Summarizer.compression_ratio r;
            Summarizer.method := method |}.
Proof.
  unfold Summarizer.generate_summary.
  assert (method = lit "extractive" \/ method = lit "abstractive"
          \/ method = lit "hybrid"
          \/ (str_eqb method (lit "extractive") = false
              /\ str_eqb method (lit "abstractive") = false
              /\ str_eqb method (lit "hybrid") = false)) as Hm.
  { destruct (str_eqb method (lit "extractive")) eqn:E1;
      [left; now apply SummarizerSpec.str_eqb_eq|].
    destruct (str_eqb method (lit "abstractive")) eqn:E2;
      [right; left; now apply SummarizerSpec.str_eqb_eq|].
    destruct (str_eqb method (lit "hybrid")) eqn:E3;
      [right; right; left; now apply SummarizerSpec.str_eqb_eq|].
    now repeat right. }
  match goal with
  | |- bind ?c _ = _ -> _ => destruct c as [e | s] eqn:Ec
  end; simpl; [discriminate|].
  unfold Summarizer.truediv.
  destruct (len (split text) =? 0)%Z eqn:Hz; simpl; [discriminate|].
  intros E. injection E as <-. simpl.
  split; [|split; [|reflexivity]].
  - destruct Hm as [Hm | [Hm | [Hm | (E1 & E2 & E3)]]]; try tauto.
    rewrite E1, E2, E3 in Ec. discriminate.
  - intros Hs. rewrite Hs in Hz. discriminate.
Qed.

(** X11: with the method ["extractive"] a text with at least one token
    always gets a result, also when TextRank raises: its summary is the
    extractive summary (5 sentences) of the preprocessed text. *)
Theorem generate_summary_extractive_returns (text : str) :
  split text <> [] ->
  exists r,
    generate_summary text (lit "extractive") = inr r
    /\ Summarizer.summary r
       = extractive_summarization (preprocess_text text) 5
    /\ Summarizer.original_length r = len (split text)
    /\ Summarizer.summary_length r = len (split (Summarizer.summary r))
    /\ Summarizer.method r = lit "extractive".
Proof.
  intros Hne. unfold Summarizer.generate_summary.
  change (str_eqb (lit "extractive") (lit "extractive")) with true.
  cbv iota. simpl bind. unfold Summarizer.truediv.
  rewrite (@len_split_pos text Hne). simpl. eexists. now repeat split.
Qed.

(** X12: a returned result is consistent with the call: the method is one
    of the three and is echoed, the text has a token, and the lengths are
    the token counts of the text as given (not as preprocessed) and of the
    summary. *)
Theorem generate_summary_result_consistent (text method : str)
    (r : Summarizer.summary_result) :
  generate_summary text method = inr r ->
  Summarizer.method r = method
  /\ (method = lit "extractive" \/ method = lit "abstractive"
      \/ method = lit "hybrid")
  /\ split text <> []
  /\ Summarizer.original_length r = len (split text)
  /\ (0 < Summarizer.original_length r)%Z
  /\ Summarizer.summary_length r = len (split (Summarizer.summary r)).
Proof.
  intros E. apply generate_summary_inv in E as (Hm & Hne & ->). simpl.
  repeat split; try assumption.
  unfold len. destruct (split text); [congruence | simpl; lia].
Qed.

(** X13: when TextRank raises, the extractive method still returns: the
    summary is the empty string, its length 0 and the ratio 0. *)
Theorem generate_summary_extractive_degrades (text : str) (e : exn) :
  textrank (preprocess_text text) 5 = inl e ->
  split text <> [] ->
  generate_summary text (lit "extractive")
  = inr {| Summarizer.summary := [];
           Summarizer.original_length := len (split text);
           Summarizer.summary_length := 0;
           Summarizer.compression_ratio := S754_zero false;
           Summarizer.method := lit "extractive" |}.
Proof.
  intros He Hne. unfold Summarizer.generate_summary.
  change (str_eqb (lit "extractive") (lit "extractive")) with true.
  cbv iota. unfold Summarizer.extractive_summarization. rewrite He.
  simpl bind. unfold Summarizer.truediv. rewrite (@len_split_pos text Hne).
  unfold len at 1. destruct (split text); [congruence | reflexivity].
Qed.


End WithModels.

(** [6 / 7] is the float 0.8571428571428571, that is
    7720456504063707 * 2^-53, and [0 / 5] is [0.0]. *)
Example truediv_rounds_to_nearest :
  Summarizer.truediv 6 7 = inr (S754_finite false 7720456504063707 (-53))
  /\ Summarizer.truediv 0 5 = inr (S754_zero false)
  /\ Summarizer.truediv 6 0 = inl ZeroDivisionError.
Proof. repeat split. Qed.

Lemma generate_summary_extractive_returns_witness :
  exists r,
    Summarizer.generate_summary ascii_table Demo.failing_textrank
      Summarizer.undefined_method (lit "one two three four five")
      (lit "extractive") = inr r
    /\ Summarizer.summary r
       = Summarizer.extractive_summarization Demo.failing_textrank
           (Summarizer.preprocess_text ascii_table
              (lit "one two three four five")) 5
    /\ Summarizer.original_length r
       = len (split (lit "one two three four five"))
    /\ Summarizer.summary_length r = len (split (Summarizer.summary r))
    /\ Summarizer.method r = lit "extractive".
Proof.
  apply (@generate_summary_extractive_returns ascii_table
           Demo.failing_textrank Summarizer.undefined_method
           (lit "one two three four five")).
  discriminate.
Defined.

Lemma generate_summary_result_consistent_witness :
  Summarizer.method Demo.sample_result = lit "extractive"
  /\ (lit "extractive" = lit "extractive"
      \/ lit "extractive" = lit "abstractive"
      \/ lit "extractive" = lit "hybrid")
  /\ split (lit "one two three four five") <> []
  /\ Summarizer.original_length Demo.sample_result
     = len (split (lit "one two three four five"))
  /\ (0 < Summarizer.original_length Demo.sample_result)%Z
  /\ Summarizer.summary_length Demo.sample_result
     = len (split (Summarizer.summary Demo.sample_result)).
Proof.
  apply (@generate_summary_result_consistent ascii_table Demo.textrank
           Summarizer.undefined_method (lit "one two three four five")
           (lit "extractive") Demo.sample_result).
  reflexivity.
Defined.

Lemma generate_summary_extractive_degrades_witness :
  Summarizer.generate_summary ascii_table Demo.failing_textrank
    Summarizer.undefined_method (lit "one two three four five")
    (lit "extractive")
  = inr {| Summarizer.summary := [];
           Summarizer.original_length := 5;
           Summarizer.summary_length := 0;
           Summarizer.compression_ratio := S754_zero false;
           Summarizer.method := lit "extractive" |}.
Proof.
  apply (@generate_summary_extractive_degrades ascii_table
           Demo.failing_textrank Summarizer.undefined_method
           (lit "one two three four five") (LibraryError 1));
    [reflexivity | discriminate].
Defined.

End DispatchProps.

(** * More on the extractor *)

Module ExtractorProps.

Import Py PyFacts TextExtractor ExtractorSpec.

(** *** Blank texts *)

Lemma split_from_nonempty (s acc : str) :
  acc <> [] -> split_from acc s <> [].
Proof.
  revert acc. induction s as [|c s IH]; intros acc Hacc; simpl.
  - now destruct acc.
  - destruct (isspace c); [now destruct acc|].
    apply IH. now destruct acc.
Qed.

(** A text has no token exactly when stripping leaves nothing. *)
Lemma split_nil_iff_strip_nil (s : str) : split s = [] <-> strip s = [].
Proof.
  split; intros E.
  - destruct (strip_is_clean s) as [Hs _]. rewrite <- split_strip in E.
    destruct (strip s) as [|c r]; [reflexivity|]. exfalso.
    simpl in Hs. unfold nonspace in Hs. apply negb_true_iff in Hs.
    unfold split in E. simpl in E. rewrite Hs in E.
    now apply (@split_from_nonempty r [c]) in E.
  - now rewrite <- split_strip, E.
Qed.

Lemma lstrip_spaces (ws : str) : forallb isspace ws = true -> lstrip ws = [].
Proof.
  induction ws as [|c ws IH]; [reflexivity|]. simpl.
  intros H. apply andb_prop in H as [Hc Hws]. rewrite Hc. now apply IH.
Qed.

Lemma rstrip_spaces (ws : str) : forallb isspace ws = true -> rstrip ws = [].
Proof.
  induction ws as [|c ws IH]; [reflexivity|]. simpl.
  intros H. apply andb_prop in H as [Hc Hws]. now rewrite IH, Hc.
Qed.

Lemma rstrip_app_spaces (s ws : str) :
  forallb isspace ws = true -> rstrip (s ++ ws) = rstrip s.
Proof.
  intros Hws. induction s as [|c s IH]; simpl.
  - now apply rstrip_spaces.
  - now rewrite IH.
Qed.

Lemma lstrip_app_spaces (s ws : str) :
  forallb isspace ws = true ->
  lstrip (s ++ ws) = match lstrip s with [] => [] | l => l ++ ws end.
Proof.
  intros Hws. induction s as [|c s IH]; simpl.
  - now apply lstrip_spaces.
  - destruct (isspace c); [exact IH | reflexivity].
Qed.

(** Whitespace at the end does not change the stripped text. *)
Lemma strip_app_spaces (s ws : str) :
  forallb isspace ws = true -> strip (s ++ ws) = strip s.
Proof.
  intros Hws. unfold strip. rewrite lstrip_app_spaces by assumption.
  destruct (lstrip s); [reflexivity | now apply rstrip_app_spaces].
Qed.

(** *** The page loops *)

Lemma plumber_text_all_pages (opts : list (option str)) (acc : str) :
  plumber_text (map inr opts) acc
  = inr (acc ++ List.concat (map (fun t => t ++ [NL]) (kept_pages opts))).
Proof.
  revert acc. induction opts as [|o opts IH]; intros acc; simpl.
  - now rewrite app_nil_r.
  - destruct o as [[|c t]|]; simpl; rewrite IH; [reflexivity | | reflexivity].
    rewrite <- app_assoc. reflexivity.
Qed.

Lemma concat_lines (ps : list str) :
  List.concat (map (fun t => t ++ [NL]) ps)
  = match ps with [] => [] | _ => join [NL] ps ++ [NL] end.
Proof.
  induction ps as [|t ps IH]; [reflexivity|].
  cbn [map List.concat]. rewrite IH.
  destruct ps as [|t' ps]; [now rewrite app_nil_r|].
  change (join [NL] (t :: t' :: ps)) with (t ++ [NL] ++ join [NL] (t' :: ps)).
  now rewrite <- !app_assoc.
Qed.

Lemma pypdf2_text_all_pages (ps : list str) (acc : str) :
  pypdf2_text (map inr ps) acc
  = inr (acc ++ List.concat (map (fun t => t ++ [NL]) ps)).
Proof.
  revert acc. induction ps as [|t ps IH]; intros acc; simpl.
  - now rewrite app_nil_r.
  - rewrite IH. rewrite <- app_assoc. reflexivity.
Qed.

(** A text that strips to nothing is all whitespace, and does not count
    in front of another text. *)
Lemma strip_nil_spaces (s : str) : strip s = [] -> forallb isspace s = true.
Proof.
  unfold strip. intros E.
  destruct (lstrip_spec s) as [ws0 [E0 H0]].
  destruct (rstrip_spec (lstrip s)) as [ws [E1 H1]].
  rewrite E in E1. simpl in E1. rewrite E0, E1, forallb_app.
  now rewrite H0, H1.
Qed.

Lemma lstrip_spaces_app (ws s : str) :
  forallb isspace ws = true -> lstrip (ws ++ s) = lstrip s.
Proof.
  induction ws as [|c ws IH]; [reflexivity|]. simpl.
  intros H. apply andb_prop in H as [Hc Hws]. rewrite Hc. now apply IH.
Qed.

Lemma split_spaces_app (ws s : str) :
  forallb isspace ws = true -> split (ws ++ s) = split s.
Proof.
  induction ws as [|c ws IH]; [reflexivity|]. simpl.
  intros H. apply andb_prop in H as [Hc Hws].
  unfold split at 1. simpl. rewrite Hc. now apply IH.
Qed.

Lemma dict_get_missing (d : list (str * str)) (key default : str) :
  (forall v, ~ In (key, v) d) -> dict_get d key default = default.
Proof.
  induction d as [|[k v] d IH]; intros Hd; [reflexivity|].
  simpl. destruct (str_eqb k key) eqn:E.
  - apply SummarizerSpec.str_eqb_eq in E. subst k.
    exfalso. apply (Hd v). now left.
  - apply IH. intros v' Hin. apply (Hd v'). now right.
Qed.

Section WithHost.

Variable H : Host.

(** X16: [extract_text] returns a result only for a file that exists and
    whose lowercased extension is [.pdf] or [.docx]. *)
Theorem extract_text_success_requires (p : str) (r : extraction) :
  extract_text H p = inr r ->
  path_exists H p = inr true
  /\ (lower (unicode H) (suffix p) = lit ".pdf"
      \/ lower (unicode H) (suffix p) = lit ".docx").
Proof.
  unfold extract_text.
  destruct (path_exists H p) as [e | [|]]; simpl; try discriminate.
  intros E. split; [reflexivity|].
  destruct (str_eqb (lower (unicode H) (suffix p)) (lit ".pdf")) eqn:E1;
    [left; now apply SummarizerSpec.str_eqb_eq|].
  destruct (str_eqb (lower (unicode H) (suffix p)) (lit ".docx")) eqn:E2;
    [right; now apply SummarizerSpec.str_eqb_eq | discriminate].
Qed.

(** X17: the text of a successful extraction has no whitespace at either
    end, is never longer than the character count, and is empty exactly
    when the word count is 0. *)
Theorem extract_text_result_shape (p : str) (r : extraction) :
  extract_text H p = inr r ->
  starts_clean (text r) = true
  /\ ends_clean (text r) = true
  /\ (len (text r) <= char_count r)%Z
  /\ (word_count r = 0%Z <-> text r = []).
Proof.
  intros E. apply extract_text_inv in E as [raw (-> & -> & ->)].
  destruct (strip_is_clean raw) as [Hs He].
  repeat split; try assumption.
  - unfold len. apply inj_le, length_strip.
  - intros Hz. apply split_nil_iff_strip_nil. unfold len in Hz.
    destruct (split raw); [reflexivity | discriminate].
  - intros Hz. apply split_nil_iff_strip_nil in Hz. now rewrite Hz.
Qed.

(** The metadata of a PDF and the text before the fallback. *)
Lemma extract_from_pdf_open (p : str) (pdf : plumber_pdf) (t : str) :
  pdfplumber_open H p = inr pdf ->
  plumber_text (plumber_pages pdf) [] = inr t ->
  strip t <> [] ->
  _extract_from_pdf H p
  = (size <- st_size H p ;;
     ret {| text := strip t;
            meta :=
              {| pages := len (plumber_pages pdf);
                 title := dict_get (plumber_metadata pdf) (lit "Title")
                            (lit "Unknown");
                 author := dict_get (plumber_metadata pdf) (lit "Author")
                             (lit "Unknown");
                 subject := dict_get (plumber_metadata pdf) (lit "Subject") [];
                 file_size := size |};
            word_count := len (split t);
            char_count := len t |}).
Proof.
  intros Eo Et Hne. unfold _extract_from_pdf. rewrite Eo. simpl.
  destruct (st_size H p) as [e | size]; simpl; [reflexivity|].
  rewrite Et. simpl. destruct (strip t) eqn:Es; [congruence|].
  simpl. now rewrite Es.
Qed.

(** X19: when pdfplumber reads every page and some page has text that is
    not blank, the returned text is the non-empty page texts joined by
    newlines and stripped, and the word count is its number of tokens. *)
Theorem extract_from_pdf_joins_pages (p : str) (pdf : plumber_pdf)
    (opts : list (option str)) (r : extraction) :
  pdfplumber_open H p = inr pdf ->
  plumber_pages pdf = map inr opts ->
  strip (join [NL] (kept_pages opts)) <> [] ->
  _extract_from_pdf H p = inr r ->
  text r = strip (join [NL] (kept_pages opts))
  /\ word_count r = len (split (join [NL] (kept_pages opts))).
Proof.
  intros Eo Ep Hne.
  assert (plumber_text (plumber_pages pdf) []
          = inr (join [NL] (kept_pages opts) ++ [NL])) as Et.
  { rewrite Ep, plumber_text_all_pages, concat_lines. simpl.
    destruct (kept_pages opts); [now elim Hne | reflexivity]. }
  rewrite (extract_from_pdf_open p Eo Et)
    by now rewrite strip_app_spaces.
  destruct (st_size H p) as [e | size]; simpl; [discriminate|].
  intros E. injection E as <-. simpl.
  rewrite strip_app_spaces by reflexivity.
  unfold split. now rewrite split_from_app_spaces.
Qed.

(** X20: in the metadata of a DOCX the title and the author are never
    empty: an empty document property is reported as ["Unknown"], any
    other as it is; the subject is the document's. *)
Theorem extract_from_docx_metadata (p : str) (doc : docx_document)
    (r : extraction) :
  docx_Document H p = inr doc ->
  _extract_from_docx H p = inr r ->
  title (meta r) <> [] /\ author (meta r) <> []
  /\ title (meta r)
     = match core_title doc with [] => lit "Unknown" | t => t end
  /\ author (meta r)
     = match core_author doc with [] => lit "Unknown" | a => a end
  /\ subject (meta r) = core_subject doc
  /\ pages (meta r) = sections doc.
Proof.
  intros Ed. unfold _extract_from_docx. rewrite Ed. simpl.
  destruct (st_size H p) as [e | size]; simpl; [discriminate|].
  intros E. injection E as <-. simpl. unfold or_else.
  repeat split.
  - destruct (core_title doc); [vm_compute|]; discriminate.
  - destruct (core_author doc); [vm_compute|]; discriminate.
  - now destruct (core_title doc).
  - now destruct (core_author doc).
  - now destruct (core_subject doc).
Qed.

(** X21: a PDF whose document information has no [Title], [Author] or
    [Subject] entry gets the title and author ["Unknown"] and the empty
    subject. *)
Theorem extract_from_pdf_metadata_defaults (p : str) (pdf : plumber_pdf)
    (r : extraction) :
  pdfplumber_open H p = inr pdf ->
  _extract_from_pdf H p = inr r ->
  ((forall v, ~ In (lit "Title", v) (plumber_metadata pdf)) ->
   title (meta r) = lit "Unknown")
  /\ ((forall v, ~ In (lit "Author", v) (plumber_metadata pdf)) ->
      author (meta r) = lit "Unknown")
  /\ ((forall v, ~ In (lit "Subject", v) (plumber_metadata pdf)) ->
      subject (meta r) = [])
  /\ pages (meta r) = len (plumber_pages pdf).
Proof.
  intros Eo. unfold _extract_from_pdf. rewrite Eo. simpl.
  destruct (st_size H p) as [e | size]; simpl; [discriminate|].
  destruct (plumber_text (plumber_pages pdf) []) as [e | t]; simpl;
    [discriminate|].
  assert (forall raw : result str,
             (raw' <- raw ;;
              ret {| text := strip raw';
                     meta :=
                       {| pages := len (plumber_pages pdf);
                          title := dict_get (plumber_metadata pdf)
                                     (lit "Title") (lit "Unknown");
                          author := dict_get (plumber_metadata pdf)
                                      (lit "Author") (lit "Unknown");
                          subject := dict_get (plumber_metadata pdf)
                                       (lit "Subject") [];
                          file_size := size |};
                     word_count := len (split raw');
                     char_count := len raw' |}) = inr r ->
             meta r
             = {| pages := len (plumber_pages pdf);
                  title := dict_get (plumber_metadata pdf)
                             (lit "Title") (lit "Unknown");
                  author := dict_get (plumber_metadata pdf)
                              (lit "Author") (lit "Unknown");
                  subject := dict_get (plumber_metadata pdf)
                               (lit "Subject") [];
                  file_size := size |}) as Hmeta.
  { intros [e | raw']; simpl; [discriminate|].
    intros E. now injection E as <-. }
  intros E. apply Hmeta in E. rewrite E. simpl.
  repeat split; intros Hd; now apply dict_get_missing.
Qed.

(** X22: when pdfplumber delivers only blank text and PyPDF2 reads every
    page, the returned text is PyPDF2's page texts joined by newlines and
    stripped, and the word count is its number of tokens; when PyPDF2
    raises instead, so does the extraction. *)
Theorem extract_from_pdf_fallback (p : str) (pdf : plumber_pdf) (t : str) :
  pdfplumber_open H p = inr pdf ->
  plumber_text (plumber_pages pdf) [] = inr t ->
  strip t = [] ->
  (forall e, pypdf2_pages H p = inl e ->
     forall r, _extract_from_pdf H p <> inr r)
  /\ (forall ps r,
        pypdf2_pages H p = inr (map inr ps) ->
        _extract_from_pdf H p = inr r ->
        text r = strip (join [NL] ps)
        /\ word_count r = len (split (join [NL] ps))).
Proof.
  intros Eo Et Hblank. unfold _extract_from_pdf. rewrite Eo. simpl.
  destruct (st_size H p) as [e | size]; simpl;
    [split; [intros; discriminate | intros ps r _ E; discriminate]|].
  rewrite Et. simpl. rewrite Hblank.
  pose proof (strip_nil_spaces t Hblank) as Hws.
  split.
  - intros e He r. rewrite He. discriminate.
  - intros ps r Hp. rewrite Hp. simpl. rewrite pypdf2_text_all_pages. simpl.
    intros E. injection E as <-. simpl.
    unfold strip. rewrite lstrip_spaces_app by assumption.
    fold (strip (List.concat (map (fun t0 => t0 ++ [NL]) ps))).
    rewrite split_spaces_app by assumption.
    rewrite concat_lines. destruct ps as [|t' ps]; [now split|].
    rewrite strip_app_spaces by reflexivity.
    unfold split. now rewrite split_from_app_spaces.
Qed.

End WithHost.

(** X18: PyPDF2 is consulted only when pdfplumber has delivered a blank
    text: on two machines that agree on pdfplumber and on the file size,
    a PDF for which pdfplumber raises, or delivers text that is not blank,
    is extracted with the same outcome, whatever PyPDF2 does. *)
Theorem extract_from_pdf_fallback_only_when_blank (H1 H2 : Host) (p : str) :
  pdfplumber_open H1 p = pdfplumber_open H2 p ->
  st_size H1 p = st_size H2 p ->
  (forall pdf t,
      pdfplumber_open H1 p = inr pdf ->
      plumber_text (plumber_pages pdf) [] = inr t ->
      strip t <> []) ->
  _extract_from_pdf H1 p = _extract_from_pdf H2 p.
Proof.
  intros Eo Es Hne. unfold _extract_from_pdf. rewrite <- Eo, <- Es.
  destruct (pdfplumber_open H1 p) as [e | pdf]; simpl; [reflexivity|].
  destruct (st_size H1 p) as [e | size]; simpl; [reflexivity|].
  destruct (plumber_text (plumber_pages pdf) []) as [e | t] eqn:Et; simpl;
    [reflexivity|].
  specialize (Hne pdf t eq_refl Et).
  destruct (strip t); [congruence | reflexivity].
Qed.

Lemma extract_text_success_requires_witness :
  path_exists Demo.host (lit "report.pdf") = inr true
  /\ (lower (unicode Demo.host) (suffix (lit "report.pdf")) = lit ".pdf"
      \/ lower (unicode Demo.host) (suffix (lit "report.pdf")) = lit ".docx").
Proof.
  eapply (@extract_text_success_requires Demo.host (lit "report.pdf")).
  reflexivity.
Defined.

Lemma extract_text_result_shape_witness :
  exists r,
    extract_text Demo.host (lit "minutes.Docx") = inr r
    /\ starts_clean (text r) = true
    /\ ends_clean (text r) = true
    /\ (len (text r) <= char_count r)%Z
    /\ (word_count r = 0%Z <-> text r = []).
Proof.
  eexists. split; [reflexivity|].
  apply (@extract_text_result_shape Demo.host (lit "minutes.Docx")).
  reflexivity.
Defined.

Lemma extract_from_pdf_fallback_only_when_blank_witness :
  _extract_from_pdf Demo.host (lit "report.pdf")
  = _extract_from_pdf Demo.host_failing_pypdf2 (lit "report.pdf").
Proof.
  apply (@extract_from_pdf_fallback_only_when_blank Demo.host
           Demo.host_failing_pypdf2 (lit "report.pdf"));
    [reflexivity | reflexivity |].
  intros pdf t Eo. injection Eo as <-. intros Et. injection Et as <-.
  discriminate.
Defined.

Lemma extract_from_pdf_joins_pages_witness :
  exists r,
    _extract_from_pdf Demo.host (lit "report.pdf") = inr r
    /\ text r = strip (join [NL] (kept_pages [Some (lit "Hello world")]))
    /\ word_count r
       = len (split (join [NL] (kept_pages [Some (lit "Hello world")]))).
Proof.
  eexists. split; [reflexivity|].
  apply (@extract_from_pdf_joins_pages Demo.host (lit "report.pdf")
           {| plumber_pages := [ret (Some (lit "Hello world"))];
              plumber_metadata := [] |}
           [Some (lit "Hello world")]);
    [reflexivity | reflexivity | discriminate | reflexivity].
Defined.

Lemma extract_from_docx_metadata_witness :
  exists r,
    _extract_from_docx Demo.host (lit "minutes.Docx") = inr r
    /\ title (meta r) = lit "Unknown"
    /\ author (meta r) = lit "Unknown"
    /\ subject (meta r) = [].
Proof.
  eexists. split; [reflexivity|].
  pose proof (@extract_from_docx_metadata Demo.host (lit "minutes.Docx")
                _ _ eq_refl eq_refl) as (_ & _ & Ht & Ha & Hs & _).
  exact (conj Ht (conj Ha Hs)).
Defined.

Lemma extract_from_pdf_metadata_defaults_witness :
  exists r,
    _extract_from_pdf Demo.host (lit "report.pdf") = inr r
    /\ title (meta r) = lit "Unknown".
Proof.
  eexists. split; [reflexivity|].
  apply (proj1 (@extract_from_pdf_metadata_defaults Demo.host
                  (lit "report.pdf") _ _ eq_refl eq_refl)).
  intros v [].
Defined.

Lemma extract_from_pdf_fallback_witness :
  exists r,
    _extract_from_pdf Demo.host_blank_plumber (lit "scan.pdf") = inr r
    /\ text r = strip (join [NL] [lit "Hello world"])
    /\ word_count r = len (split (join [NL] [lit "Hello world"])).
Proof.
  eexists. split; [reflexivity|].
  apply (proj2 (@extract_from_pdf_fallback Demo.host_blank_plumber
                  (lit "scan.pdf")
                  {| plumber_pages := [ret None; ret (Some (lit " "))];
                     plumber_metadata := [] |}
                  (lit " " ++ [NL]) eq_refl eq_refl eq_refl)
               [lit "Hello world"]); reflexivity.
Defined.

End ExtractorProps.
